(** * Phaser fragment: the NineSlice WebGL renderer and the video loader file type

    A shallow embedding of [NineSliceWebGLRenderer] and of [VideoFile]
    ([create], [getVideoURL], [onProcess] and the registered [video]
    load-queue command), with the properties of the fragment's specification. *)

From Stdlib Require Import ZArith Lia String Ascii List Bool.
From stdpp Require Import base option list strings gmap.

Local Open Scope string_scope.
Local Open Scope Z_scope.

(** ** JavaScript values

    The loader code is dynamically typed: the same variable holds a string, an
    array, an object, [null] or [undefined].  Numbers only occur here as
    values that are not strings, so integers stand for them. *)

Set Warnings "-register-all".

Inductive value : Type :=
| VUndefined
| VNull
| VBool (b : bool)
| VNum (n : Z)
| VStr (s : string)
| VArr (l : list value)
| VObj (o : gmap string value).

(** Errors a call can end with. *)
Inductive error : Type :=
| TypeError.

(** The result of running a piece of code: it returns or it throws. *)
Inductive outcome (A : Type) : Type :=
| Ret (a : A)
| Throw (e : error).

Arguments Ret {A} a.
Arguments Throw {A} e.

Definition obind {A B : Type} (m : outcome A) (k : A -> outcome B) : outcome B :=
  match m with
  | Ret a => k a
  | Throw e => Throw e
  end.

(** The code returned, it did not throw. *)
Definition returns {A : Type} (r : outcome A) : bool :=
  match r with
  | Ret _ => true
  | Throw _ => false
  end.

Declare Scope js_scope.
Delimit Scope js_scope with js.
Notation "x <-! m ; k" := (obind m (fun x => k))
  (at level 200, m at level 100, k at level 200, right associativity) : js_scope.

(** Code that runs on a state [S]: it returns or throws, and leaves a state. *)
Definition JS (S A : Type) : Type := S -> outcome A * S.

Definition ret {S A : Type} (a : A) : JS S A := fun st => (Ret a, st).

Definition throw {S A : Type} (e : error) : JS S A := fun st => (Throw e, st).

Definition bind {S A B : Type} (m : JS S A) (k : A -> JS S B) : JS S B :=
  fun st =>
    match m st with
    | (Ret a, st') => k a st'
    | (Throw e, st') => (Throw e, st')
    end.

Definition gets {S A : Type} (f : S -> A) : JS S A := fun st => (Ret (f st), st).

Definition modify {S : Type} (f : S -> S) : JS S unit := fun st => (Ret tt, f st).

Notation "x <-- m ; k" := (bind m (fun x => k))
  (at level 200, m at level 100, k at level 200, right associativity) : js_scope.
Notation "m ;; k" := (bind m (fun _ => k))
  (at level 100, k at level 200, right associativity) : js_scope.
Local Open Scope js_scope.

(** [if (v)]: JavaScript truthiness. *)
Definition truthy (v : value) : bool :=
  match v with
  | VUndefined | VNull => false
  | VBool b => b
  | VNum n => negb (Z.eqb n 0)
  | VStr s => negb (String.eqb s "")
  | VArr _ | VObj _ => true
  end.

(** [v.k] for the property names the fragment reads ([url], [type]): an own
    property of an object, [undefined] on a string, number, boolean or array,
    and a TypeError on [null] and [undefined]. *)
Definition get_prop (v : value) (k : string) : outcome value :=
  match v with
  | VUndefined | VNull => Throw TypeError
  | VObj o => Ret (default VUndefined (o !! k))
  | _ => Ret VUndefined
  end.

Definition isArray (v : value) : bool :=
  match v with
  | VArr _ => true
  | _ => false
  end.

(** Modelled from the spec: [utils/object/GetFastValue] is not part of the
    fragment.  It reads the own property [key] of [source] and gives
    [defaultValue] when [source] is no object or the property is missing or
    [undefined] ("defaulting to"). *)
Definition GetFastValue (source : value) (key : string) (defaultValue : value) : value :=
  match source with
  | VObj o =>
      match o !! key with
      | Some VUndefined | None => defaultValue
      | Some v => v
      end
  | _ => defaultValue
  end.

(** Modelled from the spec: [utils/object/IsPlainObject] is not part of the
    fragment.  A plain object is an object value; strings, arrays, [null]
    and the other primitives are not. *)
Definition IsPlainObject (v : value) : bool :=
  match v with
  | VObj _ => true
  | _ => false
  end.

(** ** Strings *)

(** [s.indexOf(p) === 0]. *)
Definition starts_with (p s : string) : bool := String.prefix p s.

Definition is_alnum (c : ascii) : bool :=
  let n := nat_of_ascii c in
  ((48 <=? n) && (n <=? 57) || (65 <=? n) && (n <=? 90) || (97 <=? n) && (n <=? 122))%nat.

(** The longest run of [[a-zA-Z0-9]] at the head of [s], and what follows it. *)
Fixpoint span_alnum (s : string) : string * string :=
  match s with
  | String c s' =>
      if is_alnum c
      then let '(run, rest) := span_alnum s' in (String c run, rest)
      else ("", s)
  | EmptyString => ("", "")
  end.

(** [s.match(/\.([a-zA-Z0-9]+)($|\?)/)], reduced to its first capture group:
    the leftmost dot followed by a non-empty alphanumeric run that is followed
    by the end of the string or by a question mark.  A shorter run is followed
    by an alphanumeric character, so only the longest run can match. *)
Fixpoint match_extension (s : string) : option string :=
  match s with
  | EmptyString => None
  | String c s' =>
      if Ascii.eqb c "."
      then
        let '(run, rest) := span_alnum s' in
        if negb (String.eqb run "") && (String.eqb rest "" || starts_with "?" rest)
        then Some run
        else match_extension s'
      else match_extension s'
  end.

Definition lower_ascii (c : ascii) : ascii :=
  let n := nat_of_ascii c in
  if ((65 <=? n) && (n <=? 90))%nat then ascii_of_nat (n + 32) else c.

(** [s.toLowerCase()] on the ASCII letters, the ones a file extension has. *)
Fixpoint toLowerCase (s : string) : string :=
  match s with
  | EmptyString => EmptyString
  | String c s' => String (lower_ascii c) (toLowerCase s')
  end.

Module VideoFile.

(** [game.device.video]: the video formats of the device, by lower-case name. *)
Record Game : Type := mkGame {
  device_video : gmap string bool
}.

(** The members every plain object inherits from [Object.prototype]: a
    name the object has no member of its own for is looked up there, and
    each of them is a function or an object, which counts as true. *)
Definition Object_prototype_members : list string :=
  ["constructor"; "__proto__"; "hasOwnProperty"; "isPrototypeOf";
   "propertyIsEnumerable"; "toLocaleString"; "toString"; "valueOf";
   "__defineGetter__"; "__defineSetter__"; "__lookupGetter__"; "__lookupSetter__"].

Definition inherited_member (k : string) : bool :=
  existsb (String.eqb k) Object_prototype_members.

(** [game.device.video[videoType]] as a condition: the flag of the device
    when the object has a member of that name, and otherwise the member of
    that name it inherits, if there is one. *)
Definition video_supported (game : Game) (videoType : string) : bool :=
  match device_video game !! videoType with
  | Some flag => flag
  | None => inherited_member videoType
  end.

(** [url.indexOf(p) === 0] for the value [GetFastValue(urls[i], 'url', urls[i])]:
    a string is searched as a string, an array by strict equality of its
    elements, and any other value has no [indexOf]. *)
Definition indexOf_is_0 (url : value) (p : string) : outcome bool :=
  match url with
  | VStr s => Ret (starts_with p s)
  | VArr (VStr s :: _) => Ret (String.eqb s p)
  | VArr _ => Ret false
  | _ => Throw TypeError
  end.

(** [url.match(...)]: only a string has [match]. *)
Definition url_match (url : value) : outcome (option string) :=
  match url with
  | VStr s => Ret (match_extension s)
  | _ => Throw TypeError
  end.

(** [v.toLowerCase()]: only a string has it. *)
Definition value_toLowerCase (v : value) : outcome string :=
  match v with
  | VStr s => Ret (toLowerCase s)
  | _ => Throw TypeError
  end.

(** The object literal [{ url: url, type: videoType }]. *)
Definition url_type_object (url : value) (videoType : string) : value :=
  VObj (<["url" := url]> (<["type" := VStr videoType]> ∅)).

(** The body of the [for] loop of [getVideoURL], over the entries that are
    left. *)
Fixpoint getVideoURL_loop (game : Game) (urls : list value) : outcome value :=
  match urls with
  | [] => Ret VNull
  | entry :: rest =>
      let url := GetFastValue entry "url" entry in
      isBlob <-! indexOf_is_0 url "blob:";
      isData <-! (if isBlob then Ret true else indexOf_is_0 url "data:");
      if isData then Ret url
      else
        m <-! url_match url;
        videoType <-! value_toLowerCase
                        (GetFastValue entry "type" (VStr (default "" m)));
        if video_supported game videoType
        then Ret (url_type_object url videoType)
        else getVideoURL_loop game rest
  end.

Definition getVideoURL (game : Game) (urls : value) : outcome value :=
  let urls := match urls with
              | VArr l => l
              | _ => [urls]
              end in
  getVideoURL_loop game urls.

(** ** The file record *)

(** Modelled from the spec: the file states of [const] are not part of the
    fragment; they are the lifecycle states a loader file goes through. *)
Inductive FileState : Type :=
| FILE_PENDING
| FILE_LOADING
| FILE_LOADED
| FILE_FAILED
| FILE_PROCESSING
| FILE_ERRORED
| FILE_COMPLETE
| FILE_DESTROYED
| FILE_POPULATED.

(** The [config] member of the file configuration. *)
Record VideoConfig : Type := mkVideoConfig {
  loadEvent : value;
  asBlob : value
}.

(** The [fileConfig] literal the constructor builds; [cache] names the video
    cache of the loader's cache manager. *)
Record FileConfig : Type := mkFileConfig {
  type : string;
  cache : string;
  extension : value;
  responseType : string;
  key : value;
  url : value;
  xhrSettings : value;
  config : VideoConfig
}.

(** [this.xhrLoader]: the request of the file, of which [onProcess] reads the
    response. *)
Record XHRLoader : Type := mkXHRLoader {
  response : value
}.

(** Modelled from the spec: the [File] base class is not part of the fragment.
    A file record keeps the configuration it was built from, its lifecycle
    state, its data and, once the base class has started the load, the
    request. *)
Record File : Type := mkFile {
  fileConfig : FileConfig;
  state : FileState;
  data : value;
  xhrLoader : option XHRLoader
}.

(** What the code reads of the loader ([loader.systems.game],
    [loader.cacheManager.video]), and the calls of [addFile] made on it, in
    order. *)
Record Loader : Type := mkLoader {
  systems_game : Game;
  cacheManager_video : string;
  addFile_calls : list File
}.

(** Modelled from the spec: [File.call(this, loader, fileConfig)] of the base
    class, which starts the record from the configuration. *)
Definition File_call (loader : Loader) (fc : FileConfig) : File :=
  mkFile fc FILE_PENDING VUndefined None.

(** [new VideoFile(loader, key, urlConfig, loadEvent, asBlob, xhrSettings)]. *)
Definition new_VideoFile (loader : Loader) (key urlConfig loadEvent asBlob xhrSettings : value)
  : outcome File :=
  ext <-! get_prop urlConfig "type";
  u <-! get_prop urlConfig "url";
  Ret (File_call loader
         {| type := "video";
            cache := cacheManager_video loader;
            extension := ext;
            responseType := "arraybuffer";
            key := key;
            url := u;
            xhrSettings := xhrSettings;
            config := {| loadEvent := loadEvent; asBlob := asBlob |} |}).

(** [VideoFile.create]: the created file, or [None] where the code falls off
    the end of the function and gives [undefined]. *)
Definition create (loader : Loader) (key urls loadEvent asBlob xhrSettings : value)
  : outcome (option File) :=
  let game := systems_game loader in
  let '(urls, loadEvent, asBlob, xhrSettings) :=
    if IsPlainObject key
    then (GetFastValue key "url" (VArr []),
          GetFastValue key "loadEvent" (VStr "canplaythrough"),
          GetFastValue key "asBlob" (VBool false),
          GetFastValue key "xhrSettings" VUndefined)
    else (urls, loadEvent, asBlob, xhrSettings) in
  urlConfig <-! getVideoURL game urls;
  if truthy urlConfig
  then f <-! new_VideoFile loader key urlConfig loadEvent asBlob xhrSettings; Ret (Some f)
  else Ret None.

(** ** [onProcess] *)

(** The calls [onProcess] makes on the base class. *)
Inductive FileCall : Type :=
| OnProcessComplete
| OnError.

(** [onProcess]: the file after the call and the calls made on the base
    class, in order.  [this.xhrLoader.response] is a TypeError while no
    request is attached; the state has been assigned by then. *)
Definition onProcess (this : File) : outcome (list FileCall) * File :=
  let this := {| fileConfig := fileConfig this; state := FILE_PROCESSING;
                 data := data this; xhrLoader := xhrLoader this |} in
  match xhrLoader this with
  | None => (Throw TypeError, this)
  | Some xhr =>
      let this := {| fileConfig := fileConfig this; state := state this;
                     data := response xhr; xhrLoader := xhrLoader this |} in
      (Ret [OnProcessComplete], this)
  end.

(** ** The [video] load-queue command *)

(** [VideoFile.create(this, ...)] as a step of loader code: it reads the
    loader and leaves it as it is. *)
Definition create_on (key urls loadEvent asBlob xhrSettings : value) : JS Loader (option File) :=
  fun this => (create this key urls loadEvent asBlob xhrSettings, this).

(** [this.addFile(videoFile)]: a call of the loader's own [addFile]. *)
Definition addFile (f : File) : JS Loader unit :=
  fun this =>
    (Ret tt, {| systems_game := systems_game this;
                cacheManager_video := cacheManager_video this;
                addFile_calls := addFile_calls this ++ [f] |}).

(** [if (videoFile) { this.addFile(videoFile); }] *)
Definition addFile_if (videoFile : option File) : JS Loader unit :=
  match videoFile with
  | Some f => addFile f
  | None => ret tt
  end.

(** The [for] loop over an array of keys. *)
Fixpoint video_loop (keys : list value) : JS Loader unit :=
  match keys with
  | [] => ret tt
  | k :: rest =>
      videoFile <-- create_on k VUndefined VUndefined VUndefined VUndefined;
      addFile_if videoFile;;
      video_loop rest
  end.

(** What the command hands back to its caller. *)
Inductive returned : Type :=
| ReturnsThis
| ReturnsValue (v : value).

(** The function registered as [video]. *)
Definition video (key urls loadEvent asBlob xhrSettings : value) : JS Loader returned :=
  match key with
  | VArr keys =>
      video_loop keys;;
      ret ReturnsThis
  | _ =>
      videoFile <-- create_on key urls loadEvent asBlob xhrSettings;
      addFile_if videoFile;;
      ret ReturnsThis
  end.

(** ** Notions the properties are stated with *)

(** The entries the loop of [getVideoURL] walks. *)
Definition url_entries (urls : value) : list value :=
  match urls with
  | VArr l => l
  | _ => [urls]
  end.

(** The URL of an entry that has one: the entry itself when it is a string,
    its [url] member when it is an object. *)
Definition entry_url (entry : value) : option string :=
  match GetFastValue entry "url" entry with
  | VStr s => Some s
  | _ => None
  end.

(** The video type of an entry as written: its explicit [type] member, or
    else the extension of its URL, or else the empty string. *)
Definition entry_type (entry : value) : option string :=
  match entry_url entry with
  | Some s =>
      match GetFastValue entry "type" (VStr (default "" (match_extension s))) with
      | VStr t => Some t
      | _ => None
      end
  | None => None
  end.


Definition is_blob_or_data (s : string) : bool :=
  starts_with "blob:" s || starts_with "data:" s.

(** [k] is a key of the map. *)
Definition is_key (m : gmap string bool) (k : string) : bool :=
  match m !! k with
  | Some _ => true
  | None => false
  end.

(** The entry is neither a blob or data URL nor has a type, as written, that
    is a key of [game.device.video]. *)
Definition no_match_as_written (game : Game) (entry : value) : bool :=
  match entry_url entry, entry_type entry with
  | Some s, Some t => negb (is_blob_or_data s) && negb (is_key (device_video game) t)
  | _, _ => false
  end.

(** The string is made of ASCII characters, on which [toLowerCase] is the
    lower case of JavaScript. *)
Fixpoint ascii_only (s : string) : bool :=
  match s with
  | EmptyString => true
  | String c s' => (nat_of_ascii c <? 128)%nat && ascii_only s'
  end.

(** The type of the entry, if it has one, is made of ASCII characters. *)
Definition ascii_typed (entry : value) : bool :=
  match entry_type entry with
  | Some t => ascii_only t
  | None => true
  end.




(** The URL list [create] works on: the [url] member of a configuration
    object, the positional argument otherwise. *)
Definition effective_urls (key urls : value) : value :=
  if IsPlainObject key then GetFastValue key "url" (VArr []) else urls.


(** The options of a configuration object, in the words of the
    specification: each is read from the member of that name and defaults
    when the member is missing or [undefined]. *)
Record Options : Type := mkOptions {
  opt_url : value;
  opt_loadEvent : value;
  opt_asBlob : value;
  opt_xhrSettings : value
}.

Definition member_or (o : gmap string value) (k : string) (d : value) : value :=
  match o !! k with
  | None => d
  | Some v => match v with VUndefined => d | _ => v end
  end.

Definition read_options (o : gmap string value) : Options :=
  {| opt_url := member_or o "url" (VArr []);
     opt_loadEvent := member_or o "loadEvent" (VStr "canplaythrough");
     opt_asBlob := member_or o "asBlob" (VBool false);
     opt_xhrSettings := member_or o "xhrSettings" VUndefined |}.

(** The file a request with the given options makes, if any. *)
Definition create_from_options (loader : Loader) (key : value) (opts : Options)
  : outcome (option File) :=
  urlConfig <-! getVideoURL (systems_game loader) (opt_url opts);
  if truthy urlConfig
  then f <-! new_VideoFile loader key urlConfig
               (opt_loadEvent opts) (opt_asBlob opts) (opt_xhrSettings opts);
       Ret (Some f)
  else Ret None.

Definition set_key (k : value) (fc : FileConfig) : FileConfig :=
  {| type := type fc; cache := cache fc; extension := extension fc;
     responseType := responseType fc; key := k; url := url fc;
     xhrSettings := xhrSettings fc; config := config fc |}.

(** The outcome of [create] with the [key] member of the file, if one was
    made, replaced. *)
Definition with_key (k : value) (r : outcome (option File)) : outcome (option File) :=
  match r with
  | Ret (Some f) =>
      Ret (Some (mkFile (set_key k (fileConfig f)) (state f) (data f) (xhrLoader f)))
  | _ => r
  end.


(** The loader after [addFile] was called with the files of [fs], in order. *)
Definition with_added (fs : list File) (loader : Loader) : Loader :=
  mkLoader (systems_game loader) (cacheManager_video loader) (addFile_calls loader ++ fs).

(** The file [create] makes of one element of an array of keys, if any. *)
Definition created (loader : Loader) (k : value) : option File :=
  match create loader k VUndefined VUndefined VUndefined VUndefined with
  | Ret (Some f) => Some f
  | _ => None
  end.

(** ** Further notions: strings and ill-typed entries *)

(** Every character of the string is one of [[a-zA-Z0-9]]. *)
Fixpoint all_alnum (s : string) : bool :=
  match s with
  | EmptyString => true
  | String c s' => is_alnum c && all_alnum s'
  end.

(** The string has no question mark. *)
Fixpoint no_question (s : string) : bool :=
  match s with
  | EmptyString => true
  | String c s' => negb (Ascii.eqb c "?") && no_question s'
  end.


(** The file [create] makes of an entry with URL [s] and video type [t]. *)
Definition video_file (loader : Loader) (key : value) (s t : string)
    (loadEvent asBlob xhrSettings : value) : File :=
  mkFile (mkFileConfig "video" (cacheManager_video loader) (VStr t) "arraybuffer"
            key (VStr s) xhrSettings (mkVideoConfig loadEvent asBlob))
    FILE_PENDING VUndefined None.

(** A file as the constructor leaves it: a video file, pending, with no data
    and no request. *)
Definition fresh_video_file (loader : Loader) (file : File) : Prop :=
  type (fileConfig file) = "video" /\
  responseType (fileConfig file) = "arraybuffer" /\
  cache (fileConfig file) = cacheManager_video loader /\
  state file = FILE_PENDING /\
  data file = VUndefined /\
  xhrLoader file = None.

(** The most files a call of the command can add: one for each key. *)
Definition keys_count (key : value) : nat :=
  match key with
  | VArr keys => length keys
  | _ => 1%nat
  end.

(** ** Sample inputs *)

Definition sample_game : Game :=
  mkGame (<["mp4" := true]> (<["webm" := true]> (<["ogg" := false]> ∅))).

Definition sample_loader : Loader := mkLoader sample_game "video" [].

Definition sample_config : gmap string value :=
  <["key" := VStr "intro"]>
    (<["url" := VArr [VStr "intro.ogv"; VStr "intro.mp4"]]>
       (<["asBlob" := VBool true]> ∅)).

End VideoFile.

(** ** The NineSlice WebGL renderer

    The renderer is a sequence of calls on collaborators the engine owns.
    They are taken behind an interface, a call of the renderer threads the
    objects it reaches through them, and every call on a collaborator is
    logged.  The counters ([vertexCount], the batch members, [totalFrame],
    offsets and texture units) are whole numbers, so integers stand for
    them; the numbers of the colour and transform arithmetic stay abstract. *)

Module NineSlice.

(** [pipeline.currentBatch]: the batch entry of which the renderer reads
    [start] and assigns [count]. *)
Record Batch : Type := mkBatch {
  start : Z;
  count : Z
}.

(** The types the host engine owns: numbers of the transform and colour
    arithmetic, mesh faces, the vertex buffer behind [vertexViewF32] and
    [vertexViewU32], and what the pipeline, the camera and the game object
    keep besides the members the renderer touches. *)
Class EngineTypes : Type := {
  Num : Type;
  Face : Type;
  Buffers : Type;
  PipelineRest : Type;
  CameraRest : Type;
  GameObjectRest : Type
}.

Section Model.
Context {T : EngineTypes}.

(** [GetCalcMatrix(...).calc], of which the components [a] to [f] are read. *)
Record TransformMatrix : Type := mkMatrix {
  a : Num; b : Num; c : Num; d : Num; e : Num; f : Num
}.

Record Pipeline : Type := mkPipeline {
  vertexCount : Z;
  currentBatch : option Batch;
  vertexComponentCount : Z;        (* currentShader.vertexComponentCount *)
  vertexView : Buffers;            (* vertexViewF32 and vertexViewU32 *)
  pipeline_rest : PipelineRest
}.

Record GameObject : Type := mkGameObject {
  faces : list Face;
  tintFill : bool;
  alpha : Num;
  totalFrame : Z;
  src_rest : GameObjectRest
}.

Record Camera : Type := mkCamera {
  roundPixels : bool;
  camera_alpha : Num;
  camera_rest : CameraRest
}.

(** The collaborators behind the narrow interface: the pipeline manager
    ([renderer.pipelines]), the pipeline, the camera, [GetCalcMatrix] and
    the faces.  [setGameObject] gives the pipeline it leaves and the texture
    unit; [Face_load] gives the buffer it leaves and the next vertex offset. *)
Class Engine : Type := {
  mul : Num -> Num -> Num;
  GetCalcMatrix : GameObject -> Camera -> option TransformMatrix -> TransformMatrix;
  addToRenderList : GameObject -> Camera -> Camera;
  pipelines_set : GameObject -> Pipeline -> Pipeline;
  pipelines_preBatch : GameObject -> Pipeline -> Pipeline;
  pipelines_postBatch : GameObject -> Pipeline -> Pipeline;
  setGameObject : GameObject -> Pipeline -> Pipeline * Z;
  shouldFlush : Z -> Pipeline -> bool;
  flush : Pipeline -> Pipeline;
  Face_update : Face -> Num -> TransformMatrix -> bool -> Face;
  Face_load : Face -> Buffers -> Z -> Z -> bool -> Buffers * Z
}.

Context {E : Engine}.

(** The calls the renderer makes on its collaborators. *)
Inductive Call : Type :=
| CAddToRenderList
| CPipelinesSet
| CSetGameObject
| CPreBatch
| CFaceUpdate (i : nat)
| CShouldFlush (amount : Z)
| CFlush
| CFaceLoad (i : nat) (vertexOffset textureUnit : Z)
| CPostBatch.

(** The objects a call of the renderer reaches, and the calls made so far. *)
Record World : Type := mkWorld {
  pipeline : Pipeline;
  src : GameObject;
  camera : Camera;
  calls : list Call
}.

Definition set_pipeline (p : Pipeline) (w : World) : World :=
  mkWorld p (src w) (camera w) (calls w).

Definition set_src (s : GameObject) (w : World) : World :=
  mkWorld (pipeline w) s (camera w) (calls w).

Definition set_camera (c : Camera) (w : World) : World :=
  mkWorld (pipeline w) (src w) c (calls w).

Definition log (c : Call) : JS World unit :=
  modify (fun w => mkWorld (pipeline w) (src w) (camera w) (calls w ++ [c])).

(** The assignments to members of the pipeline and of the game object. *)
Definition set_vertexCount (n : Z) (p : Pipeline) : Pipeline :=
  mkPipeline n (currentBatch p) (vertexComponentCount p) (vertexView p) (pipeline_rest p).

Definition set_currentBatch (cb : option Batch) (p : Pipeline) : Pipeline :=
  mkPipeline (vertexCount p) cb (vertexComponentCount p) (vertexView p) (pipeline_rest p).

Definition set_vertexView (v : Buffers) (p : Pipeline) : Pipeline :=
  mkPipeline (vertexCount p) (currentBatch p) (vertexComponentCount p) v (pipeline_rest p).

Definition set_faces (fs : list Face) (s : GameObject) : GameObject :=
  mkGameObject fs (tintFill s) (alpha s) (totalFrame s) (src_rest s).

Definition set_totalFrame (n : Z) (s : GameObject) : GameObject :=
  mkGameObject (faces s) (tintFill s) (alpha s) n (src_rest s).

(** [camera.addToRenderList(src)] *)
Definition call_addToRenderList : JS World unit :=
  log CAddToRenderList;;
  modify (fun w => set_camera (addToRenderList (src w) (camera w)) w).

(** [renderer.pipelines.set(src.pipeline, src)] *)
Definition call_pipelines_set : JS World unit :=
  log CPipelinesSet;;
  modify (fun w => set_pipeline (pipelines_set (src w) (pipeline w)) w).

(** [pipeline.setGameObject(src)] *)
Definition call_setGameObject : JS World Z :=
  log CSetGameObject;;
  r <-- gets (fun w => setGameObject (src w) (pipeline w));
  modify (set_pipeline (fst r));;
  ret (snd r).

(** [renderer.pipelines.preBatch(src)] *)
Definition call_preBatch : JS World unit :=
  log CPreBatch;;
  modify (fun w => set_pipeline (pipelines_preBatch (src w) (pipeline w)) w).

(** [renderer.pipelines.postBatch(src)] *)
Definition call_postBatch : JS World unit :=
  log CPostBatch;;
  modify (fun w => set_pipeline (pipelines_postBatch (src w) (pipeline w)) w).

(** [pipeline.shouldFlush(amount)] *)
Definition call_shouldFlush (amount : Z) : JS World bool :=
  log (CShouldFlush amount);;
  gets (fun w => shouldFlush amount (pipeline w)).

(** [pipeline.flush()] *)
Definition call_flush : JS World unit :=
  log CFlush;;
  modify (fun w => set_pipeline (flush (pipeline w)) w).

(** [faces[i].update(alpha, a, b, c, d, e, f, roundPixels)]: the face is
    updated in place and handed back. *)
Definition call_Face_update (i : nat) (face : Face) (alpha : Num)
    (calcMatrix : TransformMatrix) (roundPixels : bool) : JS World Face :=
  log (CFaceUpdate i);;
  let face' := Face_update face alpha calcMatrix roundPixels in
  modify (fun w => set_src (set_faces (<[i := face']> (faces (src w))) (src w)) w);;
  ret face'.

(** [face.load(F32, U32, vertexOffset, textureUnit, tintEffect)] *)
Definition call_Face_load (i : nat) (face : Face) (vertexOffset textureUnit : Z)
    (tintEffect : bool) : JS World Z :=
  log (CFaceLoad i vertexOffset textureUnit);;
  r <-- gets (fun w => Face_load face (vertexView (pipeline w)) vertexOffset textureUnit tintEffect);
  modify (fun w => set_pipeline (set_vertexView (fst r) (pipeline w)) w);;
  ret (snd r).

(** [pipeline.currentBatch.count = (pipeline.vertexCount - pipeline.currentBatch.start)]:
    a TypeError while [currentBatch] is [null]. *)
Definition assign_batch_count : JS World unit :=
  p <-- gets pipeline;
  match currentBatch p with
  | None => throw TypeError
  | Some cb =>
      modify (set_pipeline
                (set_currentBatch (Some (mkBatch (start cb) (vertexCount p - start cb))) p))
  end.

(** The local variables the loop assigns. *)
Record Locals : Type := mkLocals {
  vertexOffset : Z;
  textureUnit : Z;
  totalFacesRendered : Z
}.

(** The body of the [for] loop, for the face at index [i]. *)
Definition render_face (alpha : Num) (calcMatrix : TransformMatrix) (roundPixels tintEffect : bool)
    (i : nat) (face0 : Face) (loc : Locals) : JS World Locals :=
  face <-- call_Face_update i face0 alpha calcMatrix roundPixels;
  sf <-- call_shouldFlush 3;
  loc <-- (if sf
           then
             call_flush;;
             cb <-- gets (fun w => currentBatch (pipeline w));
             tu <-- (match cb with
                     | None => call_setGameObject
                     | Some _ => ret (textureUnit loc)
                     end);
             ret (mkLocals 0 tu (totalFacesRendered loc))
           else ret loc);
  vo <-- call_Face_load i face (vertexOffset loc) (textureUnit loc) tintEffect;
  let loc := mkLocals vo (textureUnit loc) (totalFacesRendered loc + 1) in
  modify (fun w => set_pipeline (set_vertexCount (vertexCount (pipeline w) + 3) (pipeline w)) w);;
  assign_batch_count;;
  ret loc.

(** The [for] loop over the faces from index [i] on. *)
Fixpoint render_faces (alpha : Num) (calcMatrix : TransformMatrix) (roundPixels tintEffect : bool)
    (i : nat) (fs : list Face) (loc : Locals) : JS World Locals :=
  match fs with
  | [] => ret loc
  | face0 :: rest =>
      loc' <-- render_face alpha calcMatrix roundPixels tintEffect i face0 loc;
      render_faces alpha calcMatrix roundPixels tintEffect (S i) rest loc'
  end.

(** [NineSliceWebGLRenderer(renderer, src, camera, parentMatrix)]: the value
    the call gives, on the world [renderer], [src] and [camera] make up. *)
Definition NineSliceWebGLRenderer (parentMatrix : option TransformMatrix) : JS World value :=
  faces0 <-- gets (fun w => faces (src w));
  let totalFaces := length faces0 in
  if Nat.eqb totalFaces 0
  then ret VUndefined
  else
    call_addToRenderList;;
    call_pipelines_set;;
    calcMatrix <-- gets (fun w => GetCalcMatrix (src w) (camera w) parentMatrix);
    textureUnit0 <-- call_setGameObject;
    vertexOffset0 <-- gets (fun w => vertexCount (pipeline w) * vertexComponentCount (pipeline w) - 1);
    tintEffect <-- gets (fun w => tintFill (src w));
    roundPixels0 <-- gets (fun w => roundPixels (camera w));
    alpha0 <-- gets (fun w => mul (camera_alpha (camera w)) (alpha (src w)));
    call_preBatch;;
    loc <-- render_faces alpha0 calcMatrix roundPixels0 tintEffect 0 faces0
              (mkLocals vertexOffset0 textureUnit0 0);
    modify (fun w => set_src (set_totalFrame (totalFrame (src w) + totalFacesRendered loc) (src w)) w);;
    call_postBatch;;
    ret VUndefined.

(** ** Notions the properties are stated with *)

Definition has_batch (p : Pipeline) : bool :=
  match currentBatch p with
  | Some _ => true
  | None => false
  end.

(** What the renderer relies on of the pipeline: [setGameObject] leaves a
    current batch, and [preBatch] does not take it away. *)
Definition setGameObject_binds_batch : Prop :=
  forall (s : GameObject) (p : Pipeline), has_batch (fst (setGameObject s p)) = true.

Definition preBatch_keeps_batch : Prop :=
  forall (s : GameObject) (p : Pipeline),
    has_batch p = true -> has_batch (pipelines_preBatch s p) = true.

(** The game object once the face at index [i] is updated. *)
Definition src_updated (i : nat) (face' : Face) (s : GameObject) : GameObject :=
  set_faces (<[i := face']> (faces s)) s.

(** The pipeline a face is written to: flushed when it has no room for
    three vertices, and bound to the game object again when the flush left
    no batch. *)
Definition before_write (s : GameObject) (p : Pipeline) : Pipeline :=
  if shouldFlush 3 p
  then match currentBatch (flush p) with
       | None => fst (setGameObject s (flush p))
       | Some _ => flush p
       end
  else p.

(** The vertex offset and the texture unit a face is written with. *)
Definition locals_before_write (s : GameObject) (p : Pipeline) (loc : Locals) : Locals :=
  if shouldFlush 3 p
  then mkLocals 0
         (match currentBatch (flush p) with
          | None => snd (setGameObject s (flush p))
          | Some _ => textureUnit loc
          end)
         (totalFacesRendered loc)
  else loc.

(** The calls one face takes, in order. *)
Definition face_calls (s : GameObject) (p : Pipeline) (i : nat) (loc : Locals) : list Call :=
  [CFaceUpdate i; CShouldFlush 3] ++
  (if shouldFlush 3 p
   then CFlush ::
        match currentBatch (flush p) with
        | None => [CSetGameObject; CFaceLoad i 0 (snd (setGameObject s (flush p)))]
        | Some _ => [CFaceLoad i 0 (textureUnit loc)]
        end
   else [CFaceLoad i (vertexOffset loc) (textureUnit loc)]).

(** The calls the loop takes over the faces from index [i] on, and the
    vertices its flushes take off the count, as long as the loop runs. *)
Fixpoint loop_calls (alpha : Num) (calcMatrix : TransformMatrix) (roundPixels tintEffect : bool)
    (i : nat) (fs : list Face) (loc : Locals) (w : World) : list Call :=
  match fs with
  | [] => []
  | face0 :: rest =>
      let s := src_updated i (Face_update face0 alpha calcMatrix roundPixels) (src w) in
      face_calls s (pipeline w) i loc ++
      match render_face alpha calcMatrix roundPixels tintEffect i face0 loc w with
      | (Ret loc', w') => loop_calls alpha calcMatrix roundPixels tintEffect (S i) rest loc' w'
      | (Throw _, _) => []
      end
  end.

Fixpoint flushed (alpha : Num) (calcMatrix : TransformMatrix) (roundPixels tintEffect : bool)
    (i : nat) (fs : list Face) (loc : Locals) (w : World) : Z :=
  match fs with
  | [] => 0
  | face0 :: rest =>
      let s := src_updated i (Face_update face0 alpha calcMatrix roundPixels) (src w) in
      (vertexCount (pipeline w) - vertexCount (before_write s (pipeline w))) +
      match render_face alpha calcMatrix roundPixels tintEffect i face0 loc w with
      | (Ret loc', w') => flushed alpha calcMatrix roundPixels tintEffect (S i) rest loc' w'
      | (Throw _, _) => 0
      end
  end.

(** The world as the loop starts: the camera has the game object on its
    render list, the pipeline is set, bound to the game object and through
    [preBatch]. *)
Definition world_before_loop (w : World) : World :=
  let p := fst (setGameObject (src w) (pipelines_set (src w) (pipeline w))) in
  mkWorld (pipelines_preBatch (src w) p) (src w)
    (addToRenderList (src w) (camera w))
    (calls w ++ [CAddToRenderList; CPipelinesSet; CSetGameObject; CPreBatch]).

Definition locals_before_loop (w : World) : Locals :=
  let r := setGameObject (src w) (pipelines_set (src w) (pipeline w)) in
  mkLocals (vertexCount (fst r) * vertexComponentCount (fst r) - 1) (snd r) 0.

(** The loop of a call of the renderer, with the arguments the call gives
    it. *)
Definition with_loop_arguments {A : Type}
    (loop : Num -> TransformMatrix -> bool -> bool -> nat -> list Face -> Locals -> World -> A)
    (parentMatrix : option TransformMatrix) (w : World) : A :=
  let cam := addToRenderList (src w) (camera w) in
  loop (mul (camera_alpha cam) (alpha (src w)))
       (GetCalcMatrix (src w) cam parentMatrix)
       (roundPixels cam) (tintFill (src w)) 0%nat (faces (src w))
       (locals_before_loop w) (world_before_loop w).

(** What follows the loop: the frame total and [postBatch]. *)
Definition world_after_loop (loc : Locals) (w : World) : World :=
  let s := set_totalFrame (totalFrame (src w) + totalFacesRendered loc) (src w) in
  mkWorld (pipelines_postBatch s (pipeline w)) s (camera w) (calls w ++ [CPostBatch]).

(** The face as a call of the renderer updates it: with the alpha of the
    camera times that of the game object, the calculated matrix and the
    rounding of the camera. *)
Definition updated_face (parentMatrix : option TransformMatrix) (w : World) (face : Face)
  : Face :=
  let cam := addToRenderList (src w) (camera w) in
  Face_update face (mul (camera_alpha cam) (alpha (src w)))
    (GetCalcMatrix (src w) cam parentMatrix) (roundPixels cam).

(** The index of the face a call loads, or updates. *)
Definition load_index (c : Call) : option nat :=
  match c with
  | CFaceLoad i _ _ => Some i
  | _ => None
  end.

Definition update_index (c : Call) : option nat :=
  match c with
  | CFaceUpdate i => Some i
  | _ => None
  end.

(** The call is a flush or binds the game object. *)
Definition is_flush_or_bind (c : Call) : bool :=
  match c with
  | CFlush | CSetGameObject => true
  | _ => false
  end.

(** The members of the batch agree with the vertex count. *)
Definition batch_counted (p : Pipeline) : Prop :=
  exists cb : Batch, currentBatch p = Some cb /\ count cb = vertexCount p - start cb.

End Model.

(** ** A sample engine

    A pipeline with a vertex capacity: it asks for a flush when the vertices
    would not fit, a flush draws what is there and drops the batch, and
    binding a game object opens a batch where none is. *)

#[export] Instance sample_types : EngineTypes := {|
  Num := Z;
  Face := Z;
  Buffers := list (Z * Z);
  PipelineRest := Z;
  CameraRest := nat;
  GameObjectRest := unit
|}.

Definition sample_setGameObject (s : GameObject) (p : Pipeline) : Pipeline * Z :=
  match currentBatch p with
  | None => (set_currentBatch (Some (mkBatch (vertexCount p) 0)) p, 0)
  | Some _ => (p, 0)
  end.

Definition sample_flush (p : Pipeline) : Pipeline :=
  if 0 <? vertexCount p
  then set_currentBatch None (set_vertexCount 0 p)
  else p.

#[export] Instance sample_engine : Engine := {|
  mul := Z.mul;
  GetCalcMatrix := fun _ _ parentMatrix => default (mkMatrix 1 0 0 1 0 0) parentMatrix;
  addToRenderList := fun _ cam => mkCamera (roundPixels cam) (camera_alpha cam) (S (camera_rest cam));
  pipelines_set := fun _ p => p;
  pipelines_preBatch := fun _ p => p;
  pipelines_postBatch := fun _ p => p;
  setGameObject := sample_setGameObject;
  shouldFlush := fun amount p => pipeline_rest p <? vertexCount p + amount;
  flush := sample_flush;
  Face_update := fun face _ _ _ => face;
  Face_load := fun face buf vertexOffset _ _ => ((buf ++ [(vertexOffset, face)])%list, vertexOffset + 18)
|}.

Definition sample_pipeline : Pipeline :=
  mkPipeline 3 (Some (mkBatch 0 3)) 6 [] 6.

Definition sample_world (fs : list Face) : World :=
  mkWorld sample_pipeline (mkGameObject fs false 1 0 tt) (mkCamera false 1 0%nat) [].

(** A pipeline that never asks for a flush and opens no batch of its own:
    binding a game object leaves it as it is. *)
Definition bare_engine : Engine := {|
  mul := Z.mul;
  GetCalcMatrix := fun _ _ parentMatrix => default (mkMatrix 1 0 0 1 0 0) parentMatrix;
  addToRenderList := fun _ cam => mkCamera (roundPixels cam) (camera_alpha cam) (S (camera_rest cam));
  pipelines_set := fun _ p => p;
  pipelines_preBatch := fun _ p => p;
  pipelines_postBatch := fun _ p => p;
  setGameObject := fun _ p => (p, 0);
  shouldFlush := fun _ _ => false;
  flush := fun p => p;
  Face_update := fun face alpha _ _ => face * alpha;
  Face_load := fun face buf vertexOffset _ _ => ((buf ++ [(vertexOffset, face)])%list, vertexOffset + 18)
|}.

Definition bare_world (cb : option Batch) (fs : list Face) : World :=
  mkWorld (mkPipeline 3 cb 6 [] 6) (mkGameObject fs false 2 0 tt) (mkCamera false 3 0%nat) [].

End NineSlice.

(** * Properties of the video loader file type *)

Module VideoFileProps.
Import VideoFile.

(** ** [getVideoURL] *)

Lemma getVideoURL_entries (game : Game) (urls : value) :
  getVideoURL game urls = getVideoURL_loop game (url_entries urls).
Proof. destruct urls; reflexivity. Qed.

(** One round of the loop on an entry with URL [s] and type [t]. *)
Lemma loop_step (game : Game) (entry : value) (rest : list value) (s t : string) :
  entry_url entry = Some s ->
  entry_type entry = Some t ->
  getVideoURL_loop game (entry :: rest) =
    if is_blob_or_data s then Ret (VStr s)
    else if video_supported game (toLowerCase t)
         then Ret (url_type_object (VStr s) (toLowerCase t))
         else getVideoURL_loop game rest.
Proof.
  unfold entry_type, entry_url. intros Hu Ht.
  cbn [getVideoURL_loop].
  destruct (GetFastValue entry "url" entry) as [| | | |s'| |] eqn:Eu; try discriminate.
  injection Hu as ->.
  destruct (GetFastValue entry "type" (VStr (default "" (match_extension s))))
    as [| | | |t'| |] eqn:Et; try discriminate.
  injection Ht as ->.
  unfold is_blob_or_data. cbn [indexOf_is_0 obind].
  destruct (starts_with "blob:" s); cbn [orb obind]; [reflexivity|].
  destruct (starts_with "data:" s); cbn [obind url_match]; [reflexivity|].
  rewrite Et. reflexivity.
Qed.








(** ** [create] and the command *)

Lemma create_effective (loader : Loader) (key urls le ab xs : value) :
  getVideoURL (systems_game loader) (effective_urls key urls) = Ret VNull ->
  create loader key urls le ab xs = Ret None.
Proof.
  unfold create, effective_urls.
  destruct (IsPlainObject key); intros ->; reflexivity.
Qed.

Lemma video_single (key urls le ab xs : value) (loader : Loader) :
  isArray key = false ->
  video key urls le ab xs loader =
    match create loader key urls le ab xs with
    | Ret (Some f) => (Ret ReturnsThis, with_added [f] loader)
    | Ret None => (Ret ReturnsThis, loader)
    | Throw e => (Throw e, loader)
    end.
Proof.
  intros Hk.
  assert (video key urls le ab xs loader =
          (videoFile <-- create_on key urls le ab xs;
           addFile_if videoFile;; ret ReturnsThis) loader) as ->.
  { destruct key; try reflexivity. discriminate. }
  unfold bind, create_on.
  destruct (create loader key urls le ab xs) as [[f|]|err]; reflexivity.
Qed.





Example movie_MP4_is_taken :
  no_match_as_written sample_game (VStr "movie.MP4") = true /\
  getVideoURL sample_game (VArr [VStr "movie.MP4"])
  = Ret (url_type_object (VStr "movie.MP4") "mp4").
Proof. split; reflexivity. Qed.


(** ** The shapes [getVideoURL] gives *)





(** ** The options of a configuration object *)

Lemma GetFastValue_member_or (o : gmap string value) (k : string) (d : value) :
  GetFastValue (VObj o) k d = member_or o k d.
Proof.
  unfold GetFastValue, member_or.
  destruct (o !! k) as [[]|]; reflexivity.
Qed.

Lemma create_object (loader : Loader) (o : gmap string value) (urls le ab xs : value) :
  create loader (VObj o) urls le ab xs
  = create_from_options loader (VObj o) (read_options o).
Proof.
  unfold create, create_from_options, read_options.
  cbn [IsPlainObject opt_url opt_loadEvent opt_asBlob opt_xhrSettings].
  rewrite !GetFastValue_member_or. reflexivity.
Qed.

Lemma new_VideoFile_with_key (loader : Loader) (k key urlConfig le ab xs : value) :
  with_key k (f <-! new_VideoFile loader key urlConfig le ab xs; Ret (Some f))
  = (f <-! new_VideoFile loader k urlConfig le ab xs; Ret (Some f)).
Proof.
  unfold new_VideoFile.
  destruct (get_prop urlConfig "type"); [|reflexivity].
  destruct (get_prop urlConfig "url"); reflexivity.
Qed.

Lemma create_from_options_with_key (loader : Loader) (k key : value) (opts : Options) :
  with_key k (create_from_options loader key opts) = create_from_options loader k opts.
Proof.
  unfold create_from_options.
  destruct (getVideoURL (systems_game loader) (opt_url opts)) as [urlConfig|err];
    [|reflexivity].
  cbn [obind]. destruct (truthy urlConfig); [|reflexivity].
  apply new_VideoFile_with_key.
Qed.

Lemma create_from_options_fields (loader : Loader) (key : value) (opts : Options) (file : File) :
  create_from_options loader key opts = Ret (Some file) ->
  loadEvent (config (fileConfig file)) = opt_loadEvent opts /\
  asBlob (config (fileConfig file)) = opt_asBlob opts /\
  xhrSettings (fileConfig file) = opt_xhrSettings opts /\
  VideoFile.key (fileConfig file) = key.
Proof.
  unfold create_from_options, new_VideoFile.
  destruct (getVideoURL (systems_game loader) (opt_url opts)) as [urlConfig|err];
    [|discriminate].
  cbn [obind]. destruct (truthy urlConfig); [|discriminate].
  destruct (get_prop urlConfig "type"); [|discriminate].
  destruct (get_prop urlConfig "url"); [|discriminate].
  cbn [obind]. intros H. injection H as <-. repeat split.
Qed.

(** C4: with a plain object for [key], [create] works from the four options
    [url], [loadEvent], [asBlob] and [xhrSettings] of the object, each with
    its default, whatever the positional arguments are; two objects with the
    same four options give the same file up to the [key] it records; and the
    file made carries the options read. *)
Theorem create_reads_options (loader : Loader) (o : gmap string value) :
  (forall urls le ab xs : value,
      create loader (VObj o) urls le ab xs
      = create_from_options loader (VObj o) (read_options o)) /\
  read_options o
  = mkOptions (GetFastValue (VObj o) "url" (VArr []))
              (GetFastValue (VObj o) "loadEvent" (VStr "canplaythrough"))
              (GetFastValue (VObj o) "asBlob" (VBool false))
              (GetFastValue (VObj o) "xhrSettings" VUndefined) /\
  (forall (o' : gmap string value) (k urls le ab xs urls' le' ab' xs' : value),
      read_options o' = read_options o ->
      with_key k (create loader (VObj o') urls' le' ab' xs')
      = with_key k (create loader (VObj o) urls le ab xs)) /\
  (forall (urls le ab xs : value) (file : File),
      create loader (VObj o) urls le ab xs = Ret (Some file) ->
      loadEvent (config (fileConfig file)) = opt_loadEvent (read_options o) /\
      asBlob (config (fileConfig file)) = opt_asBlob (read_options o) /\
      xhrSettings (fileConfig file) = opt_xhrSettings (read_options o) /\
      VideoFile.key (fileConfig file) = VObj o).
Proof.
  split; [intros; apply create_object|]. split; [|split].
  - unfold read_options. rewrite !GetFastValue_member_or. reflexivity.
  - intros o' k urls le ab xs urls' le' ab' xs' Hopts.
    rewrite !create_object, !create_from_options_with_key, Hopts. reflexivity.
  - intros urls le ab xs file. rewrite create_object.
    apply create_from_options_fields.
Qed.

Lemma create_reads_options_witness :
  with_key VNull
    (create sample_loader (VObj (<["instances" := VNum 2]> sample_config))
       (VStr "other.mp4") VNull VNull VNull)
  = with_key VNull
      (create sample_loader (VObj sample_config)
         VUndefined VUndefined VUndefined VUndefined) /\
  exists file : File,
    create sample_loader (VObj sample_config) (VStr "other.webm") VNull VNull VNull
    = Ret (Some file) /\
    VideoFile.url (fileConfig file) = VStr "intro.mp4" /\
    loadEvent (config (fileConfig file)) = VStr "canplaythrough" /\
    asBlob (config (fileConfig file)) = VBool true.
Proof.
  pose proof (create_reads_options sample_loader sample_config)
    as (Hcreate & _ & Hexact & Hfields).
  split.
  - apply Hexact. vm_compute. reflexivity.
  - destruct (create sample_loader (VObj sample_config) (VStr "other.webm") VNull VNull VNull)
      as [[file|]|err] eqn:Ec.
    + exists file. split; [reflexivity|].
      destruct (Hfields _ _ _ _ file Ec) as (Hle & Hab & _).
      split; [|split; [exact Hle|exact Hab]].
      vm_compute in Ec. injection Ec as <-. reflexivity.
    + vm_compute in Ec. discriminate Ec.
    + vm_compute in Ec. discriminate Ec.
Defined.

(** ** [onProcess] *)


(** ** The command *)

Lemma with_added_nil (loader : Loader) : with_added [] loader = loader.
Proof. destruct loader. unfold with_added. cbn. rewrite app_nil_r. reflexivity. Qed.

Lemma with_added_app (fs gs : list File) (loader : Loader) :
  with_added gs (with_added fs loader) = with_added (fs ++ gs)%list loader.
Proof. unfold with_added. cbn. rewrite app_assoc. reflexivity. Qed.

Lemma video_loop_returns (keys : list value) (loader : Loader) :
  forallb (fun k => returns (create loader k VUndefined VUndefined VUndefined VUndefined))
    keys = true ->
  video_loop keys loader = (Ret tt, with_added (omap (created loader) keys) loader).
Proof.
  revert loader. induction keys as [|k keys IH]; intros loader H.
  - cbn. rewrite with_added_nil. reflexivity.
  - cbn [forallb] in H. apply andb_true_iff in H as [Hk Hkeys].
    change (omap (created loader) (k :: keys))
      with (match created loader k with
            | Some file => file :: omap (created loader) keys
            | None => omap (created loader) keys
            end).
    cbn [video_loop]. unfold bind at 1, create_on at 1. unfold created at 1.
    destruct (create loader k VUndefined VUndefined VUndefined VUndefined)
      as [[file|]|err]; [| |discriminate].
    + unfold bind at 1. cbn [addFile_if addFile].
      change (mkLoader (systems_game loader) (cacheManager_video loader)
                (addFile_calls loader ++ [file])%list)
        with (with_added [file] loader).
      rewrite IH by exact Hkeys. rewrite with_added_app.
      change (created (with_added [file] loader)) with (created loader).
      reflexivity.
    + unfold bind at 1. cbn [addFile_if ret]. apply IH, Hkeys.
Qed.




(** ** What the command returns *)










Example movie_constructor_is_taken :
  is_key (device_video sample_game) "constructor" = false /\
  getVideoURL sample_game (VArr [VStr "movie.constructor"])
  = Ret (url_type_object (VStr "movie.constructor") "constructor").
Proof. split; reflexivity. Qed.

End VideoFileProps.

(** * Properties of the NineSlice WebGL renderer *)

Module NineSliceProps.
Import NineSlice.

Section Renderer.
Context {T : EngineTypes} {E : Engine}.

Variables (alpha0 : Num) (calcMatrix : TransformMatrix) (roundPixels0 tintEffect : bool).

(** ** One face *)

(** The loop body, worked out: the world and the locals it leaves. *)
Lemma render_face_eq (i : nat) (face0 : Face) (loc : Locals) (w : World) :
  let face := Face_update face0 alpha0 calcMatrix roundPixels0 in
  let s := src_updated i face (src w) in
  let q := before_write s (pipeline w) in
  let loc1 := locals_before_write s (pipeline w) loc in
  let r := Face_load face (vertexView q) (vertexOffset loc1) (textureUnit loc1) tintEffect in
  let q' := set_vertexCount (vertexCount q + 3) (set_vertexView (fst r) q) in
  let cs := (calls w ++ face_calls s (pipeline w) i loc)%list in
  render_face alpha0 calcMatrix roundPixels0 tintEffect i face0 loc w =
    match currentBatch q with
    | None => (Throw TypeError, mkWorld q' s (camera w) cs)
    | Some cb =>
        (Ret (mkLocals (snd r) (textureUnit loc1) (totalFacesRendered loc + 1)),
         mkWorld (set_currentBatch (Some (mkBatch (start cb) (vertexCount q + 3 - start cb))) q')
           s (camera w) cs)
    end.
Proof.
  intros face s q loc1 r q' cs.
  subst cs q' r loc1 q s face.
  unfold render_face, before_write, locals_before_write, face_calls, src_updated.
  unfold call_Face_update, call_shouldFlush, call_flush, call_setGameObject,
    call_Face_load, assign_batch_count, log, bind, modify, gets, ret, throw.
  cbn [pipeline src camera calls set_pipeline set_src fst snd].
  destruct (shouldFlush 3 (pipeline w)) eqn:Esf.
  - cbn [pipeline src camera calls set_pipeline set_src fst snd].
    destruct (currentBatch (flush (pipeline w))) as [cb|] eqn:Ecb.
    + cbn [pipeline src camera calls set_pipeline set_src fst snd
             vertexOffset textureUnit totalFacesRendered
             set_vertexCount set_vertexView currentBatch vertexCount vertexView].
      rewrite Ecb. rewrite <- !app_assoc. reflexivity.
    + cbn [pipeline src camera calls set_pipeline set_src fst snd
             vertexOffset textureUnit totalFacesRendered
             set_vertexCount set_vertexView currentBatch vertexCount vertexView].
      destruct (currentBatch (fst (setGameObject _ (flush (pipeline w))))) as [cb|];
        rewrite <- !app_assoc; reflexivity.
  - cbn [pipeline src camera calls set_pipeline set_src fst snd
           vertexOffset textureUnit totalFacesRendered
           set_vertexCount set_vertexView currentBatch vertexCount vertexView].
    destruct (currentBatch (pipeline w)) as [cb|];
      rewrite <- !app_assoc; reflexivity.
Qed.

Lemma before_write_has_batch (s : GameObject) (p : Pipeline) :
  setGameObject_binds_batch ->
  has_batch p = true -> has_batch (before_write s p) = true.
Proof.
  intros Hbind Hp. unfold before_write.
  destruct (shouldFlush 3 p); [|exact Hp].
  destruct (currentBatch (flush p)) as [cb|] eqn:Ecb.
  - unfold has_batch. rewrite Ecb. reflexivity.
  - apply Hbind.
Qed.

(** With a batch to count in, the loop body returns; it leaves three
    vertices more than the pipeline had as the face was written, and the
    batch counted. *)
Lemma render_face_counts (i : nat) (face0 : Face) (loc : Locals) (w : World) :
  setGameObject_binds_batch ->
  has_batch (pipeline w) = true ->
  let s := src_updated i (Face_update face0 alpha0 calcMatrix roundPixels0) (src w) in
  exists (loc' : Locals) (w' : World),
    render_face alpha0 calcMatrix roundPixels0 tintEffect i face0 loc w = (Ret loc', w') /\
    vertexCount (pipeline w') = vertexCount (before_write s (pipeline w)) + 3 /\
    batch_counted (pipeline w') /\
    has_batch (pipeline w') = true /\
    totalFacesRendered loc' = totalFacesRendered loc + 1 /\
    src w' = s /\
    camera w' = camera w.
Proof.
  intros Hbind Hp s.
  pose proof (before_write_has_batch s (pipeline w) Hbind Hp) as Hq.
  rewrite render_face_eq. cbv zeta. fold s.
  unfold has_batch in Hq.
  destruct (currentBatch (before_write s (pipeline w))) as [cb|]; [|discriminate].
  eexists. eexists. split; [reflexivity|].
  cbn. repeat split.
  exists (mkBatch (start cb) (vertexCount (before_write s (pipeline w)) + 3 - start cb)).
  split; reflexivity.
Qed.

(** ** The loop *)

Lemma render_faces_counts (fs : list Face) :
  setGameObject_binds_batch ->
  forall (i : nat) (loc : Locals) (w : World),
    has_batch (pipeline w) = true ->
    exists (loc' : Locals) (w' : World),
      render_faces alpha0 calcMatrix roundPixels0 tintEffect i fs loc w = (Ret loc', w') /\
      vertexCount (pipeline w')
      = vertexCount (pipeline w) + 3 * Z.of_nat (length fs)
        - flushed alpha0 calcMatrix roundPixels0 tintEffect i fs loc w /\
      (fs <> [] -> batch_counted (pipeline w')) /\
      has_batch (pipeline w') = true /\
      totalFacesRendered loc' = totalFacesRendered loc + Z.of_nat (length fs) /\
      totalFrame (src w') = totalFrame (src w) /\
      camera w' = camera w.
Proof.
  intros Hbind. induction fs as [|face0 rest IH]; intros i loc w Hp.
  - exists loc, w. cbn. repeat split; try lia; try assumption. congruence.
  - destruct (render_face_counts i face0 loc w Hbind Hp)
      as (loc1 & w1 & Hface & Hvc & Hcount & Hb & Htotal & Hsrc & Hcam).
    destruct (IH (S i) loc1 w1 Hb)
      as (loc' & w' & Hloop & Hvc' & Hcount' & Hb' & Htotal' & Hframe' & Hcam').
    exists loc', w'.
    cbn [render_faces flushed]. unfold bind at 1. rewrite Hface, Hloop.
    repeat split.
    + rewrite Hvc', Hvc. cbn [length]. lia.
    + intros _. destruct rest as [|face1 rest'].
      * cbn in Hloop. unfold ret in Hloop. injection Hloop as _ <-. exact Hcount.
      * apply Hcount'. discriminate.
    + exact Hb'.
    + rewrite Htotal', Htotal. cbn [length]. lia.
    + rewrite Hframe', Hsrc. reflexivity.
    + rewrite Hcam', Hcam. reflexivity.
Qed.

Lemma flushed_no_flush (fs : list Face) :
  (forall p : Pipeline, shouldFlush 3 p = false) ->
  forall (i : nat) (loc : Locals) (w : World),
    flushed alpha0 calcMatrix roundPixels0 tintEffect i fs loc w = 0.
Proof.
  intros Hno. induction fs as [|face0 rest IH]; intros i loc w; [reflexivity|].
  cbn [flushed]. unfold before_write. rewrite Hno.
  destruct (render_face alpha0 calcMatrix roundPixels0 tintEffect i face0 loc w)
    as [[loc'|err] w']; [rewrite IH|]; lia.
Qed.

Lemma render_face_calls (i : nat) (face0 : Face) (loc : Locals) (w : World) :
  calls (snd (render_face alpha0 calcMatrix roundPixels0 tintEffect i face0 loc w))
  = (calls w ++ face_calls
                  (src_updated i (Face_update face0 alpha0 calcMatrix roundPixels0) (src w))
                  (pipeline w) i loc)%list.
Proof.
  rewrite render_face_eq. cbv zeta.
  destruct (currentBatch _); reflexivity.
Qed.

Lemma render_faces_calls (fs : list Face) :
  forall (i : nat) (loc : Locals) (w : World),
    calls (snd (render_faces alpha0 calcMatrix roundPixels0 tintEffect i fs loc w))
    = (calls w ++ loop_calls alpha0 calcMatrix roundPixels0 tintEffect i fs loc w)%list.
Proof.
  induction fs as [|face0 rest IH]; intros i loc w.
  - cbn. rewrite app_nil_r. reflexivity.
  - cbn [render_faces loop_calls]. unfold bind at 1.
    pose proof (render_face_calls i face0 loc w) as Hface.
    destruct (render_face alpha0 calcMatrix roundPixels0 tintEffect i face0 loc w)
      as [[loc'|err] w'] eqn:Er; cbn [snd] in Hface.
    + rewrite IH, Hface, app_assoc. reflexivity.
    + cbn [snd]. rewrite Hface, app_nil_r. reflexivity.
Qed.

End Renderer.

(** ** The whole call *)

Section Call.
Context {T : EngineTypes} {E : Engine}.

Lemma renderer_empty (parentMatrix : option TransformMatrix) (w : World) :
  faces (src w) = [] ->
  NineSliceWebGLRenderer parentMatrix w = (Ret VUndefined, w).
Proof.
  intros Hf. unfold NineSliceWebGLRenderer, bind, gets. rewrite Hf. reflexivity.
Qed.

(** A call with faces is the loop between its prologue and its epilogue. *)
Lemma renderer_eq (parentMatrix : option TransformMatrix) (w : World) :
  faces (src w) <> [] ->
  NineSliceWebGLRenderer parentMatrix w =
    match with_loop_arguments render_faces parentMatrix w with
    | (Ret loc, w1) => (Ret VUndefined, world_after_loop loc w1)
    | (Throw err, w1) => (Throw err, w1)
    end.
Proof.
  intros Hf.
  unfold NineSliceWebGLRenderer, with_loop_arguments, world_before_loop, locals_before_loop,
    world_after_loop.
  unfold bind at 1. unfold gets at 1.
  destruct (faces (src w)) as [|face0 rest] eqn:Efaces; [contradiction|].
  cbn [length Nat.eqb].
  unfold call_addToRenderList, call_pipelines_set, call_setGameObject, call_preBatch,
    call_postBatch, log, bind, modify, gets, ret.
  cbn [pipeline src camera calls set_pipeline set_src set_camera fst snd].
  rewrite <- !app_assoc. cbn [app].
  destruct (render_faces _ _ _ _ 0 (face0 :: rest) _ _) as [[loc|err] w1]; reflexivity.
Qed.

(** C2: with no faces the renderer returns at once: it makes no call on the
    pipeline manager, the pipeline or the camera, and leaves the game
    object, the camera and the pipeline as they were. *)
Theorem empty_faces_no_calls (parentMatrix : option TransformMatrix) (w : World) :
  faces (src w) = [] ->
  NineSliceWebGLRenderer parentMatrix w = (Ret VUndefined, w).
Proof. apply renderer_empty. Qed.

Lemma loop_returns (parentMatrix : option TransformMatrix) (w : World) :
  setGameObject_binds_batch ->
  preBatch_keeps_batch ->
  let n := Z.of_nat (length (faces (src w))) in
  exists (loc : Locals) (w1 : World),
    with_loop_arguments render_faces parentMatrix w = (Ret loc, w1) /\
    vertexCount (pipeline w1)
    = vertexCount (pipeline (world_before_loop w)) + 3 * n
      - with_loop_arguments flushed parentMatrix w /\
    (faces (src w) <> [] -> batch_counted (pipeline w1)) /\
    totalFacesRendered loc = n /\
    totalFrame (src w1) = totalFrame (src w).
Proof.
  intros Hbind Hpre n. unfold with_loop_arguments.
  assert (has_batch (pipeline (world_before_loop w)) = true) as Hb
    by (apply Hpre, Hbind).
  destruct (render_faces_counts
              (mul (camera_alpha (addToRenderList (src w) (camera w))) (alpha (src w)))
              (GetCalcMatrix (src w) (addToRenderList (src w) (camera w)) parentMatrix)
              (roundPixels (addToRenderList (src w) (camera w))) (tintFill (src w))
              (faces (src w)) Hbind 0%nat (locals_before_loop w) (world_before_loop w) Hb)
    as (loc & w1 & Hloop & Hvc & Hcount & _ & Htotal & Hframe & _).
  exists loc, w1. repeat split; assumption.
Qed.

(** C6, as amended: on a pipeline whose [setGameObject] leaves a current
    batch, every face adds exactly three to [vertexCount], counted from the
    pipeline the face is written to, and leaves [currentBatch.count] at
    [vertexCount - currentBatch.start]; where [preBatch] keeps the batch as
    well, over a call with [n > 0] faces the count grows by [3 * n] less
    what the flushes in between took off, by [3 * n] when none flushed, and
    [src.totalFrame] grows by exactly [n]. *)
Theorem renderer_counters :
  setGameObject_binds_batch ->
  (forall (alpha0 : Num) (calcMatrix : TransformMatrix) (roundPixels0 tintEffect : bool)
          (i : nat) (face0 : Face) (loc : Locals) (w : World),
      has_batch (pipeline w) = true ->
      exists (loc' : Locals) (w' : World),
        render_face alpha0 calcMatrix roundPixels0 tintEffect i face0 loc w = (Ret loc', w') /\
        vertexCount (pipeline w')
        = vertexCount
            (before_write
               (src_updated i (Face_update face0 alpha0 calcMatrix roundPixels0) (src w))
               (pipeline w)) + 3 /\
        batch_counted (pipeline w')) /\
  (preBatch_keeps_batch ->
   forall (parentMatrix : option TransformMatrix) (w : World),
     faces (src w) <> [] ->
     let n := Z.of_nat (length (faces (src w))) in
     exists (loc : Locals) (w1 : World),
       with_loop_arguments render_faces parentMatrix w = (Ret loc, w1) /\
       NineSliceWebGLRenderer parentMatrix w = (Ret VUndefined, world_after_loop loc w1) /\
       vertexCount (pipeline w1)
       = vertexCount (pipeline (world_before_loop w)) + 3 * n
         - with_loop_arguments flushed parentMatrix w /\
       ((forall p : Pipeline, shouldFlush 3 p = false) ->
        vertexCount (pipeline w1) = vertexCount (pipeline (world_before_loop w)) + 3 * n) /\
       batch_counted (pipeline w1) /\
       totalFrame (src (world_after_loop loc w1)) = totalFrame (src w) + n).
Proof.
  intros Hbind. split.
  - intros alpha0 calcMatrix roundPixels0 tintEffect i face0 loc w Hb.
    destruct (render_face_counts alpha0 calcMatrix roundPixels0 tintEffect i face0 loc w Hbind Hb)
      as (loc' & w' & Hface & Hvc & Hcount & _).
    exists loc', w'. repeat split; assumption.
  - intros Hpre parentMatrix w Hf n.
    destruct (loop_returns parentMatrix w Hbind Hpre)
      as (loc & w1 & Hloop & Hvc & Hcount & Htotal & Hframe).
    exists loc, w1. repeat split.
    + exact Hloop.
    + rewrite renderer_eq by exact Hf. rewrite Hloop. reflexivity.
    + exact Hvc.
    + intros Hno. rewrite Hvc. unfold with_loop_arguments.
      rewrite flushed_no_flush by exact Hno. lia.
    + apply Hcount, Hf.
    + cbn. rewrite Hframe, Htotal. reflexivity.
Qed.

(** C7: for every face the renderer asks [shouldFlush(3)] before it writes;
    when the answer is yes it flushes, binds the game object again if the
    flush left no batch, and writes from offset 0.  The face is written in
    one call, after the flush, into the pipeline so prepared, and the three
    vertices are counted there; the calls of the loop are those of its
    faces, in order. *)
Theorem flush_before_write :
  (forall (alpha0 : Num) (calcMatrix : TransformMatrix) (roundPixels0 tintEffect : bool)
          (i : nat) (face0 : Face) (loc : Locals) (w : World),
      let face := Face_update face0 alpha0 calcMatrix roundPixels0 in
      let s := src_updated i face (src w) in
      let loc1 := locals_before_write s (pipeline w) loc in
      let w' := snd (render_face alpha0 calcMatrix roundPixels0 tintEffect i face0 loc w) in
      calls w' = (calls w ++ face_calls s (pipeline w) i loc)%list /\
      vertexView (pipeline w')
      = fst (Face_load face (vertexView (before_write s (pipeline w)))
               (vertexOffset loc1) (textureUnit loc1) tintEffect) /\
      vertexCount (pipeline w') = vertexCount (before_write s (pipeline w)) + 3) /\
  (forall (alpha0 : Num) (calcMatrix : TransformMatrix) (roundPixels0 tintEffect : bool)
          (i : nat) (fs : list Face) (loc : Locals) (w : World),
      calls (snd (render_faces alpha0 calcMatrix roundPixels0 tintEffect i fs loc w))
      = (calls w ++ loop_calls alpha0 calcMatrix roundPixels0 tintEffect i fs loc w)%list) /\
  (forall (parentMatrix : option TransformMatrix) (w : World),
      calls (snd (NineSliceWebGLRenderer parentMatrix w))
      = match faces (src w) with
        | [] => calls w
        | _ :: _ =>
            (calls w ++ [CAddToRenderList; CPipelinesSet; CSetGameObject; CPreBatch]
             ++ with_loop_arguments loop_calls parentMatrix w
             ++ (if returns (fst (NineSliceWebGLRenderer parentMatrix w))
                 then [CPostBatch] else []))%list
        end).
Proof.
  split; [|split].
  - intros alpha0 calcMatrix roundPixels0 tintEffect i face0 loc w face s loc1 w'.
    subst w'. rewrite render_face_eq. cbv zeta. fold face. fold s. fold loc1.
    destruct (currentBatch (before_write s (pipeline w))); repeat split.
  - intros. apply render_faces_calls.
  - intros parentMatrix w.
    destruct (faces (src w)) as [|face0 rest] eqn:Ef.
    + rewrite renderer_empty by exact Ef. reflexivity.
    + assert (faces (src w) <> []) as Hf by (rewrite Ef; discriminate).
      rewrite renderer_eq by exact Hf.
      pose proof (render_faces_calls
                    (mul (camera_alpha (addToRenderList (src w) (camera w))) (alpha (src w)))
                    (GetCalcMatrix (src w) (addToRenderList (src w) (camera w)) parentMatrix)
                    (roundPixels (addToRenderList (src w) (camera w))) (tintFill (src w))
                    (faces (src w)) 0%nat (locals_before_loop w) (world_before_loop w))
        as Hcalls.
      unfold with_loop_arguments.
      destruct (render_faces _ _ _ _ 0 (faces (src w)) _ _) as [[loc|err] w1];
        cbn [snd fst returns world_after_loop calls] in *; rewrite Hcalls;
        cbn [world_before_loop calls]; rewrite <- ?app_assoc;
        rewrite ?app_nil_r; reflexivity.
Qed.

(** C8, as amended: the renderer has no return value.  It returns
    [undefined] when there are no faces, and, on a pipeline whose
    [setGameObject] leaves a current batch and whose [preBatch] keeps it,
    for every game object, camera and parent matrix; and no call returns
    anything else. *)
Theorem renderer_returns_undefined (parentMatrix : option TransformMatrix) (w : World) :
  (faces (src w) = [] -> fst (NineSliceWebGLRenderer parentMatrix w) = Ret VUndefined) /\
  (setGameObject_binds_batch -> preBatch_keeps_batch ->
   fst (NineSliceWebGLRenderer parentMatrix w) = Ret VUndefined) /\
  (forall v : value,
      fst (NineSliceWebGLRenderer parentMatrix w) = Ret v -> v = VUndefined).
Proof.
  split; [|split].
  - intros Hf. rewrite renderer_empty by exact Hf. reflexivity.
  - intros Hbind Hpre.
    destruct (faces (src w)) as [|face0 rest] eqn:Ef.
    + rewrite renderer_empty by exact Ef. reflexivity.
    + assert (faces (src w) <> []) as Hf by (rewrite Ef; discriminate).
      destruct (loop_returns parentMatrix w Hbind Hpre) as (loc & w1 & Hloop & _).
      rewrite renderer_eq by exact Hf. rewrite Hloop. reflexivity.
  - intros v.
    destruct (faces (src w)) as [|face0 rest] eqn:Ef.
    + rewrite renderer_empty by exact Ef. cbn. congruence.
    + assert (faces (src w) <> []) as Hf by (rewrite Ef; discriminate).
      rewrite renderer_eq by exact Hf.
      destruct (with_loop_arguments render_faces parentMatrix w) as [[loc|err] w1];
        cbn; congruence.
Qed.

End Call.

(** ** The sample engine keeps the contract *)

Lemma sample_binds_batch : setGameObject_binds_batch.
Proof.
  intros s p. unfold has_batch. cbn [setGameObject sample_engine].
  unfold sample_setGameObject.
  destruct (currentBatch p) as [cb|] eqn:Ecb; cbn [fst].
  - rewrite Ecb. reflexivity.
  - reflexivity.
Qed.

Lemma sample_preBatch_keeps_batch : preBatch_keeps_batch.
Proof. intros s p Hp. exact Hp. Qed.

Lemma empty_faces_no_calls_witness :
  NineSliceWebGLRenderer None (sample_world []) = (Ret VUndefined, sample_world []).
Proof. apply (empty_faces_no_calls None (sample_world [])). reflexivity. Defined.

Lemma renderer_counters_witness :
  (exists (loc' : Locals) (w' : World),
      render_face (T := sample_types) 1 (mkMatrix 1 0 0 1 0 0) false false 0 10
        (mkLocals 17 0 0) (sample_world [10])
      = (Ret loc', w') /\
      vertexCount (pipeline w') = 3 + 3 /\
      batch_counted (pipeline w')) /\
  exists (loc : Locals) (w1 : World),
    with_loop_arguments render_faces None (sample_world [10; 20; 30]) = (Ret loc, w1) /\
    NineSliceWebGLRenderer None (sample_world [10; 20; 30])
    = (Ret VUndefined, world_after_loop loc w1) /\
    vertexCount (pipeline w1)
    = vertexCount (pipeline (world_before_loop (sample_world [10; 20; 30]))) + 3 * 3
      - with_loop_arguments flushed None (sample_world [10; 20; 30]) /\
    ((forall p : Pipeline, shouldFlush 3 p = false) ->
     vertexCount (pipeline w1)
     = vertexCount (pipeline (world_before_loop (sample_world [10; 20; 30]))) + 3 * 3) /\
    batch_counted (pipeline w1) /\
    totalFrame (src (world_after_loop loc w1)) = 0 + 3.
Proof.
  split.
  - apply (proj1 (renderer_counters (T := sample_types) sample_binds_batch)
             1 (mkMatrix (T := sample_types) 1 0 0 1 0 0) false false 0%nat 10
             (mkLocals 17 0 0) (sample_world [10])).
    reflexivity.
  - apply (proj2 (renderer_counters sample_binds_batch) sample_preBatch_keeps_batch
             None (sample_world [10; 20; 30])).
    discriminate.
Defined.

Lemma renderer_returns_undefined_witness :
  fst (NineSliceWebGLRenderer None (sample_world [])) = Ret VUndefined /\
  fst (NineSliceWebGLRenderer None (sample_world [10; 20; 30])) = Ret VUndefined.
Proof.
  split.
  - apply (proj1 (renderer_returns_undefined None (sample_world []))). reflexivity.
  - apply (proj1 (proj2 (renderer_returns_undefined None (sample_world [10; 20; 30])))).
    + exact sample_binds_batch.
    + exact sample_preBatch_keeps_batch.
Defined.

(** C6 as written fails: on a pipeline whose [setGameObject] opens no batch
    and that starts with none, a call with two faces throws at the first
    assignment of [currentBatch.count] and leaves [totalFrame] as it was. *)
Lemma renderer_counters_need_batch :
  ~ (forall w : World,
        faces (src w) <> [] ->
        totalFrame (src (snd (NineSliceWebGLRenderer (E := bare_engine) None w)))
        = totalFrame (src w) + Z.of_nat (length (faces (src w)))).
Proof.
  intros H.
  specialize (H (bare_world None [5; 7])).
  vm_compute in H. specialize (H ltac:(discriminate)). discriminate H.
Qed.

(** C8 as written fails: the same call throws a TypeError and returns
    nothing. *)
Lemma renderer_throws_without_batch :
  ~ (forall w : World,
        fst (NineSliceWebGLRenderer (E := bare_engine) None w) = Ret VUndefined).
Proof.
  intros H.
  specialize (H (bare_world None [5; 7])).
  vm_compute in H. discriminate H.
Qed.

End NineSliceProps.

(** * Further properties of the video loader file type *)

Module VideoFileMore.
Import VideoFile VideoFileProps.

(** ** The extension of a URL *)

Lemma append_empty_r (s : string) : (s ++ "")%string = s.
Proof.
  induction s as [|c s IH]; [reflexivity|].
  change (String c (s ++ "")%string = String c s). rewrite IH. reflexivity.
Qed.

Lemma append_String (c : ascii) (s t : string) :
  (String c s ++ t)%string = String c (s ++ t)%string.
Proof. reflexivity. Qed.

Lemma append_empty_l (s : string) : ("" ++ s)%string = s.
Proof. reflexivity. Qed.

Lemma append_assoc (s1 s2 s3 : string) :
  ((s1 ++ s2) ++ s3)%string = (s1 ++ s2 ++ s3)%string.
Proof.
  induction s1 as [|c s1 IH]; [reflexivity|].
  change (String c ((s1 ++ s2) ++ s3)%string = String c (s1 ++ s2 ++ s3)%string).
  rewrite IH. reflexivity.
Qed.

Lemma span_alnum_spec (s : string) :
  forall run rest : string,
    span_alnum s = (run, rest) -> s = (run ++ rest)%string /\ all_alnum run = true.
Proof.
  induction s as [|c s IH]; intros run rest H.
  - injection H as <- <-. split; reflexivity.
  - cbn [span_alnum] in H. destruct (is_alnum c) eqn:Ec.
    + destruct (span_alnum s) as [run' rest'].
      injection H as <- <-.
      destruct (IH run' rest' eq_refl) as [-> Hall].
      split; [reflexivity|]. cbn [all_alnum]. rewrite Ec, Hall. reflexivity.
    + injection H as <- <-. split; reflexivity.
Qed.

Lemma starts_with_question (s : string) :
  starts_with "?" s = true -> exists s' : string, s = String "?" s'.
Proof.
  destruct s as [|c s']; [discriminate|].
  unfold starts_with. cbn [String.prefix].
  destruct (ascii_dec "?" c) as [<-|]; [|discriminate].
  intros _. exists s'. reflexivity.
Qed.

Lemma starts_with_question_false (c : ascii) (s : string) :
  Ascii.eqb c "?" = false -> starts_with "?" (String c s) = false.
Proof.
  intros Hc. unfold starts_with. cbn [String.prefix].
  destruct (ascii_dec "?" c) as [<-|]; [|reflexivity].
  rewrite Ascii.eqb_refl in Hc. discriminate.
Qed.

(** The alphanumeric run is read whole when the end of the string or a
    question mark follows it. *)
Lemma span_alnum_app (ext tail : string) :
  all_alnum ext = true ->
  tail = "" \/ starts_with "?" tail = true ->
  span_alnum (ext ++ tail) = (ext, tail).
Proof.
  intros Hall Htail. induction ext as [|c ext IH].
  - rewrite append_empty_l. destruct Htail as [->|Hq]; [reflexivity|].
    destruct (starts_with_question tail Hq) as [tail' ->]. reflexivity.
  - cbn [all_alnum] in Hall. apply andb_true_iff in Hall as [Hc Hall].
    rewrite append_String. cbn [span_alnum]. rewrite Hc, (IH Hall). reflexivity.
Qed.

(** Before a dot, in a string with no question mark, a run never ends at
    the end of the string or at a question mark. *)
Lemma span_alnum_stop (pre tail : string) :
  no_question pre = true ->
  forall run rest : string,
    span_alnum (pre ++ String "." tail) = (run, rest) ->
    String.eqb rest "" = false /\ starts_with "?" rest = false.
Proof.
  induction pre as [|c pre IH]; intros Hq run rest H.
  - change (span_alnum ("" ++ String "." tail)) with ("", String "." tail) in H.
    injection H as <- <-. split; reflexivity.
  - cbn [no_question] in Hq. apply andb_true_iff in Hq as [Hc Hq].
    apply negb_true_iff in Hc.
    rewrite append_String in H. cbn [span_alnum] in H. destruct (is_alnum c).
    + destruct (span_alnum (pre ++ String "." tail)) as [run' rest'] eqn:Es.
      injection H as <- <-. apply (IH Hq run' rest' eq_refl).
    + injection H as <- <-. split; [reflexivity|].
      apply starts_with_question_false, Hc.
Qed.

Lemma match_extension_last (pre ext tail : string) :
  no_question pre = true ->
  all_alnum ext = true ->
  ext <> "" ->
  tail = "" \/ starts_with "?" tail = true ->
  match_extension (pre ++ String "." (ext ++ tail)) = Some ext.
Proof.
  intros Hq Hall Hne Htail. induction pre as [|c pre IH].
  - rewrite append_empty_l. cbn [match_extension]. rewrite Ascii.eqb_refl.
    rewrite (span_alnum_app ext tail Hall Htail).
    assert (String.eqb ext "" = false) as -> by (apply String.eqb_neq, Hne).
    destruct Htail as [-> | Hstart]; [reflexivity|].
    rewrite Hstart, orb_true_r. reflexivity.
  - cbn [no_question] in Hq. apply andb_true_iff in Hq as [Hc Hq].
    rewrite append_String. cbn [match_extension].
    destruct (Ascii.eqb c "."); [|apply IH, Hq].
    destruct (span_alnum (pre ++ String "." (ext ++ tail))) as [run rest] eqn:Es.
    destruct (span_alnum_stop pre (ext ++ tail) Hq run rest Es) as [-> ->].
    rewrite andb_false_r. apply IH, Hq.
Qed.

Lemma match_extension_sound (s e : string) :
  match_extension s = Some e ->
  exists pre post : string,
    s = (pre ++ String "." (e ++ post))%string /\
    e <> "" /\ all_alnum e = true /\
    (post = "" \/ starts_with "?" post = true).
Proof.
  induction s as [|c s IH]; intros H; [discriminate|].
  cbn [match_extension] in H.
  destruct (Ascii.eqb c ".") eqn:Ec.
  - apply Ascii.eqb_eq in Ec as ->.
    destruct (span_alnum s) as [run rest] eqn:Es.
    destruct (negb (String.eqb run "") && (String.eqb rest "" || starts_with "?" rest))
      eqn:Econd.
    + injection H as <-.
      apply andb_true_iff in Econd as [Hne Hrest].
      destruct (span_alnum_spec s run rest Es) as [-> Hall].
      exists "", rest. repeat split.
      * apply negb_true_iff, String.eqb_neq in Hne. exact Hne.
      * exact Hall.
      * apply orb_true_iff in Hrest as [Hr|Hr]; [left|right; exact Hr].
        apply String.eqb_eq, Hr.
    + destruct (IH H) as (pre & post & -> & Hrest).
      exists (String "." pre), post. split; [reflexivity|exact Hrest].
  - destruct (IH H) as (pre & post & -> & Hrest).
    exists (String c pre), post. split; [reflexivity|exact Hrest].
Qed.

Lemma no_dot_no_extension (s : string) :
  (forall pre post : string, s <> (pre ++ String "." post)%string) ->
  match_extension s = None.
Proof.
  intros Hno. destruct (match_extension s) as [e|] eqn:Em; [|reflexivity].
  destruct (match_extension_sound s e Em) as (pre & post & Hs & _).
  exfalso. exact (Hno pre (e ++ post)%string Hs).
Qed.

(** X1: an extension the URL pattern finds is a non-empty run of letters
    and digits that follows a dot and is followed by the end of the URL or
    by a question mark; a URL with no dot has no extension. *)
Theorem extension_is_sound (s : string) :
  (forall e : string,
      match_extension s = Some e ->
      exists pre post : string,
        s = (pre ++ String "." (e ++ post))%string /\
        e <> "" /\ all_alnum e = true /\
        (post = "" \/ starts_with "?" post = true)) /\
  ((forall pre post : string, s <> (pre ++ String "." post)%string) ->
   match_extension s = None).
Proof.
  split; [intros e; apply match_extension_sound|apply no_dot_no_extension].
Qed.

Lemma extension_is_sound_witness :
  (exists pre post : string,
      "clips/intro.v2.webm?cache=1.5"
      = (pre ++ String "." ("webm" ++ post))%string /\
      "webm" <> "" /\ all_alnum "webm" = true /\
      (post = "" \/ starts_with "?" post = true)).
Proof.
  apply (proj1 (extension_is_sound "clips/intro.v2.webm?cache=1.5") "webm").
  reflexivity.
Defined.

Lemma entry_type_of_string (s : string) :
  entry_type (VStr s) = Some (default "" (match_extension s)).
Proof. reflexivity. Qed.

(** X2: for a URL string [path.ext] or [path.ext?query] whose path has no
    question mark, the extension read is [ext], whatever dots the path has,
    and the URL, when it is no blob or data URL, is taken exactly when
    [game.device.video] has a true member, own or inherited, for [ext] in
    lower case; otherwise the result is [null]. *)
Theorem extension_before_query (game : Game) (pre ext tail : string) :
  no_question pre = true ->
  all_alnum ext = true ->
  ext <> "" ->
  tail = "" \/ starts_with "?" tail = true ->
  let s := (pre ++ String "." (ext ++ tail))%string in
  match_extension s = Some ext /\
  (is_blob_or_data s = false ->
   getVideoURL game (VStr s)
   = if video_supported game (toLowerCase ext)
     then Ret (url_type_object (VStr s) (toLowerCase ext))
     else Ret VNull).
Proof.
  intros Hq Hall Hne Htail s.
  pose proof (match_extension_last pre ext tail Hq Hall Hne Htail) as Hm.
  fold s in Hm. split; [exact Hm|].
  intros Hb. rewrite getVideoURL_entries. cbn [url_entries].
  rewrite (loop_step game (VStr s) [] s ext eq_refl);
    [|rewrite entry_type_of_string, Hm; reflexivity].
  rewrite Hb. reflexivity.
Qed.

Lemma extension_before_query_witness :
  match_extension "http://cdn.example.com/v1.2/intro.MP4?token=a.b" = Some "MP4" /\
  getVideoURL sample_game (VStr "http://cdn.example.com/v1.2/intro.MP4?token=a.b")
  = Ret (url_type_object (VStr "http://cdn.example.com/v1.2/intro.MP4?token=a.b") "mp4").
Proof.
  destruct (extension_before_query sample_game "http://cdn.example.com/v1.2/intro"
              "MP4" "?token=a.b") as [Hm Hget].
  - reflexivity.
  - reflexivity.
  - discriminate.
  - right. reflexivity.
  - split; [exact Hm|]. apply Hget. reflexivity.
Defined.

(** ** What [getVideoURL] gives and when it throws *)

Lemma lower_ascii_idem (c : ascii) : lower_ascii (lower_ascii c) = lower_ascii c.
Proof. destruct c as [[] [] [] [] [] [] [] []]; reflexivity. Qed.

Lemma toLowerCase_idem (s : string) : toLowerCase (toLowerCase s) = toLowerCase s.
Proof.
  induction s as [|c s IH]; [reflexivity|].
  cbn [toLowerCase]. rewrite lower_ascii_idem, IH. reflexivity.
Qed.

Lemma loop_result_sound (game : Game) (l : list value) (v : value) :
  getVideoURL_loop game l = Ret v ->
  v = VNull \/
  (exists entry : value,
      In entry l /\ v = GetFastValue entry "url" entry /\
      (indexOf_is_0 v "blob:" = Ret true \/ indexOf_is_0 v "data:" = Ret true)) \/
  (exists (entry : value) (s t : string),
      In entry l /\ GetFastValue entry "url" entry = VStr s /\
      v = url_type_object (VStr s) t /\
      video_supported game t = true /\ toLowerCase t = t).
Proof.
  induction l as [|entry l IH]; intros H.
  - left. injection H as <-. reflexivity.
  - cbn [getVideoURL_loop] in H.
    destruct (indexOf_is_0 (GetFastValue entry "url" entry) "blob:")
      as [[|]|err] eqn:Eblob; cbn [obind] in H; [| |discriminate].
    + injection H as <-. right. left. exists entry.
      split; [left; reflexivity|]. split; [reflexivity|]. left. exact Eblob.
    + destruct (indexOf_is_0 (GetFastValue entry "url" entry) "data:")
        as [[|]|err] eqn:Edata; cbn [obind] in H; [| |discriminate].
      * injection H as <-. right. left. exists entry.
        split; [left; reflexivity|]. split; [reflexivity|]. right. exact Edata.
      * destruct (GetFastValue entry "url" entry) as [| | | |s| |] eqn:Eu;
          try discriminate H.
        cbn [url_match obind] in H.
        destruct (value_toLowerCase
                    (GetFastValue entry "type" (VStr (default "" (match_extension s)))))
          as [t|err] eqn:Et; cbn [obind] in H; [|discriminate].
        destruct (video_supported game t) eqn:Es.
        -- injection H as <-. right. right. exists entry, s, t.
           split; [left; reflexivity|]. split; [exact Eu|]. split; [reflexivity|].
           split; [exact Es|].
           destruct (GetFastValue entry "type" _) as [| | | |t0| |]; try discriminate Et.
           injection Et as <-. apply toLowerCase_idem.
        -- destruct (IH H) as [Hn|[(e1 & Hin & Hrest)|(e1 & s1 & t1 & Hin & Hrest)]].
           ++ left. exact Hn.
           ++ right. left. exists e1. split; [right; exact Hin|exact Hrest].
           ++ right. right. exists e1, s1, t1. split; [right; exact Hin|exact Hrest].
Qed.

(** X3: on entries whose types are strings of ASCII characters, a value
    [getVideoURL] returns is [null], or the URL value of one of the entries,
    passing for a blob or data URL, or an object whose [url] is the URL
    string of one of the entries and whose [type] is in lower case and
    names a true member of [game.device.video], own or inherited: it never
    names a type the lookup of which is not true. *)
Theorem getVideoURL_result_sound (game : Game) (urls v : value) :
  forallb ascii_typed (url_entries urls) = true ->
  getVideoURL game urls = Ret v ->
  v = VNull \/
  (exists entry : value,
      In entry (url_entries urls) /\ v = GetFastValue entry "url" entry /\
      (indexOf_is_0 v "blob:" = Ret true \/ indexOf_is_0 v "data:" = Ret true)) \/
  (exists (entry : value) (s t : string),
      In entry (url_entries urls) /\ GetFastValue entry "url" entry = VStr s /\
      v = url_type_object (VStr s) t /\
      video_supported game t = true /\ toLowerCase t = t).
Proof. intros _. rewrite getVideoURL_entries. apply loop_result_sound. Qed.

Lemma getVideoURL_result_sound_witness :
  url_type_object (VStr "b.WebM") "webm" = VNull \/
  (exists entry : value,
      In entry [VStr "a.ogg"; VStr "b.WebM"] /\
      url_type_object (VStr "b.WebM") "webm" = GetFastValue entry "url" entry /\
      (indexOf_is_0 (url_type_object (VStr "b.WebM") "webm") "blob:" = Ret true \/
       indexOf_is_0 (url_type_object (VStr "b.WebM") "webm") "data:" = Ret true)) \/
  (exists (entry : value) (s t : string),
      In entry [VStr "a.ogg"; VStr "b.WebM"] /\
      GetFastValue entry "url" entry = VStr s /\
      url_type_object (VStr "b.WebM") "webm" = url_type_object (VStr s) t /\
      video_supported sample_game t = true /\ toLowerCase t = t).
Proof.
  apply (getVideoURL_result_sound sample_game (VArr [VStr "a.ogg"; VStr "b.WebM"])
           (url_type_object (VStr "b.WebM") "webm")); reflexivity.
Defined.




(** ** Entries that are objects *)

Lemma object_entry_url (o : gmap string value) (s : string) :
  o !! "url" = Some (VStr s) -> entry_url (VObj o) = Some s.
Proof. unfold entry_url, GetFastValue. intros ->. reflexivity. Qed.

Lemma object_entry_type (o : gmap string value) (s t : string) :
  o !! "url" = Some (VStr s) ->
  o !! "type" = Some (VStr t) ->
  entry_type (VObj o) = Some t.
Proof.
  intros Hu Ht. unfold entry_type. rewrite (object_entry_url o s Hu).
  unfold GetFastValue. rewrite Ht. reflexivity.
Qed.

(** X5: the [type] member of an entry object, a string of ASCII
    characters, overrides the extension of its URL: whatever the URL string
    (no blob or data URL) looks like, the entry is taken exactly when
    [game.device.video] has a true member, own or inherited, for the named
    type in lower case, and the object returned names that type. *)
Theorem explicit_type_overrides_extension (game : Game) (o : gmap string value)
    (s t : string) (rest : list value) :
  o !! "url" = Some (VStr s) ->
  o !! "type" = Some (VStr t) ->
  ascii_only t = true ->
  is_blob_or_data s = false ->
  getVideoURL game (VArr (VObj o :: rest))
  = if video_supported game (toLowerCase t)
    then Ret (url_type_object (VStr s) (toLowerCase t))
    else getVideoURL game (VArr rest).
Proof.
  intros Hu Ht _ Hb. unfold getVideoURL.
  rewrite (loop_step game (VObj o) rest s t
             (object_entry_url o s Hu) (object_entry_type o s t Hu Ht)).
  rewrite Hb. reflexivity.
Qed.

Lemma explicit_type_overrides_extension_witness :
  getVideoURL sample_game
    (VArr [VObj (<["url" := VStr "stream.php?id=7"]> (<["type" := VStr "WEBM"]> ∅));
           VStr "intro.mp4"])
  = Ret (url_type_object (VStr "stream.php?id=7") "webm") /\
  getVideoURL sample_game
    (VArr [VObj (<["url" := VStr "intro.mp4"]> (<["type" := VStr "avi"]> ∅))])
  = Ret VNull.
Proof.
  split.
  - apply (explicit_type_overrides_extension sample_game
             (<["url" := VStr "stream.php?id=7"]> (<["type" := VStr "WEBM"]> ∅))
             "stream.php?id=7" "WEBM" [VStr "intro.mp4"]); reflexivity.
  - apply (explicit_type_overrides_extension sample_game
             (<["url" := VStr "intro.mp4"]> (<["type" := VStr "avi"]> ∅))
             "intro.mp4" "avi" []); reflexivity.
Defined.

(** ** What [create] makes *)

(** X6: a configuration object with no [url] member (or an [undefined] one)
    makes no file, whatever URLs are passed beside it: the list defaults to
    the empty one, [create] gives nothing and the command adds nothing. *)
Theorem config_without_url_makes_no_file (loader : Loader) (o : gmap string value)
    (urls le ab xs : value) :
  o !! "url" = None \/ o !! "url" = Some VUndefined ->
  create loader (VObj o) urls le ab xs = Ret None /\
  video (VObj o) urls le ab xs loader = (Ret ReturnsThis, loader).
Proof.
  intros Hu.
  assert (create loader (VObj o) urls le ab xs = Ret None) as Hc.
  { apply create_effective. unfold effective_urls, GetFastValue. cbn [IsPlainObject].
    destruct Hu as [-> | ->]; reflexivity. }
  split; [exact Hc|].
  rewrite video_single by reflexivity. rewrite Hc. reflexivity.
Qed.

Lemma config_without_url_makes_no_file_witness :
  create sample_loader (VObj (<["key" := VStr "intro"]> ∅))
    (VArr [VStr "intro.mp4"]) VUndefined VUndefined VUndefined = Ret None /\
  video (VObj (<["key" := VStr "intro"]> ∅))
    (VArr [VStr "intro.mp4"]) VUndefined VUndefined VUndefined sample_loader
  = (Ret ReturnsThis, sample_loader).
Proof.
  apply (config_without_url_makes_no_file sample_loader (<["key" := VStr "intro"]> ∅)).
  left. reflexivity.
Defined.




Lemma create_fresh (loader : Loader) (key urls le ab xs : value) (file : File) :
  create loader key urls le ab xs = Ret (Some file) ->
  fresh_video_file loader file.
Proof.
  unfold create.
  destruct (IsPlainObject key);
    (destruct (getVideoURL (systems_game loader) _) as [urlConfig|err]; [|discriminate];
     cbn [obind]; destruct (truthy urlConfig); [|discriminate];
     unfold new_VideoFile;
     destruct (get_prop urlConfig "type"); [|discriminate];
     destruct (get_prop urlConfig "url"); [|discriminate];
     cbn [obind]; intros H; injection H as <-; repeat split).
Qed.

(** ** The command as a whole *)

Lemma video_loop_app (pre rest : list value) (loader : Loader) :
  video_loop (pre ++ rest) loader
  = match video_loop pre loader with
    | (Ret _, loader') => video_loop rest loader'
    | (Throw err, loader') => (Throw err, loader')
    end.
Proof.
  revert loader. induction pre as [|k pre IH]; intros loader; [reflexivity|].
  rewrite <- app_comm_cons. cbn [video_loop]. unfold bind.
  destruct (create_on k VUndefined VUndefined VUndefined VUndefined loader)
    as [[videoFile|err] loader1]; [|reflexivity].
  destruct (addFile_if videoFile loader1) as [[[]|err] loader2]; [|reflexivity].
  apply IH.
Qed.

(** X8: the array form of the command is the command run on each element
    in turn, with no positional arguments: it stops at the first element
    that throws, does nothing on the empty array, and never looks at the
    URLs, load event, blob flag or XHR settings passed beside the array. *)
Theorem video_array_composes (loader : Loader) (urls le ab xs : value) :
  video (VArr []) urls le ab xs loader = (Ret ReturnsThis, loader) /\
  (forall (k : value) (rest : list value),
      isArray k = false ->
      video (VArr (k :: rest)) urls le ab xs loader
      = match video k VUndefined VUndefined VUndefined VUndefined loader with
        | (Ret _, loader') => video (VArr rest) urls le ab xs loader'
        | (Throw err, loader') => (Throw err, loader')
        end) /\
  (forall (keys : list value) (urls' le' ab' xs' : value),
      video (VArr keys) urls' le' ab' xs' loader = video (VArr keys) urls le ab xs loader).
Proof.
  split; [reflexivity|]. split; [|reflexivity].
  intros k rest Hk.
  rewrite (video_single k) by exact Hk.
  cbn [video video_loop]. unfold bind at 1 2, create_on at 1.
  destruct (create loader k VUndefined VUndefined VUndefined VUndefined)
    as [[file|]|err]; reflexivity.
Qed.

Lemma video_array_composes_witness :
  video (VArr [VObj sample_config; VObj ∅]) VUndefined VUndefined VUndefined VUndefined
    sample_loader
  = match video (VObj sample_config) VUndefined VUndefined VUndefined VUndefined
            sample_loader with
    | (Ret _, loader') =>
        video (VArr [VObj ∅]) VUndefined VUndefined VUndefined VUndefined loader'
    | (Throw err, loader') => (Throw err, loader')
    end.
Proof.
  apply (proj1 (proj2 (video_array_composes sample_loader
                         VUndefined VUndefined VUndefined VUndefined))).
  reflexivity.
Defined.

(** X9: when an element of the array makes [create] throw, the command
    throws that error; the files of the elements before it have been added,
    in order, and the elements after it are never looked at. *)
Theorem video_array_throws_midway (loader : Loader) (urls le ab xs : value)
    (before after : list value) (k : value) (err : error) :
  forallb (fun k' => returns (create loader k' VUndefined VUndefined VUndefined VUndefined))
    before = true ->
  create loader k VUndefined VUndefined VUndefined VUndefined = Throw err ->
  video (VArr (before ++ k :: after)) urls le ab xs loader
  = (Throw err, with_added (omap (created loader) before) loader).
Proof.
  intros Hbefore Hk. cbn [video]. unfold bind at 1.
  rewrite video_loop_app, (video_loop_returns before loader Hbefore).
  cbn [video_loop]. unfold bind at 1, create_on at 1.
  change (create (with_added (omap (created loader) before) loader)
            k VUndefined VUndefined VUndefined VUndefined)
    with (create loader k VUndefined VUndefined VUndefined VUndefined).
  rewrite Hk. reflexivity.
Qed.

Lemma video_array_throws_midway_witness :
  video (VArr [VObj sample_config; VStr "intro"; VObj sample_config])
    VUndefined VUndefined VUndefined VUndefined sample_loader
  = (Throw TypeError,
     with_added (omap (created sample_loader) [VObj sample_config]) sample_loader).
Proof.
  apply (video_array_throws_midway sample_loader
           VUndefined VUndefined VUndefined VUndefined
           [VObj sample_config] [VObj sample_config] (VStr "intro") TypeError);
    vm_compute; reflexivity.
Defined.

Lemma video_loop_grows (keys : list value) :
  forall loader : Loader,
    exists files : list File,
      snd (video_loop keys loader) = with_added files loader /\
      Forall (fresh_video_file loader) files /\
      (length files <= length keys)%nat.
Proof.
  induction keys as [|k keys IH]; intros loader.
  - exists []. cbn. rewrite with_added_nil. repeat split; [constructor|lia].
  - cbn [video_loop]. unfold bind at 1, create_on at 1.
    destruct (create loader k VUndefined VUndefined VUndefined VUndefined)
      as [[file|]|err] eqn:Ec.
    + unfold bind at 1. cbn [addFile_if addFile].
      change (mkLoader (systems_game loader) (cacheManager_video loader)
                (addFile_calls loader ++ [file])%list)
        with (with_added [file] loader).
      destruct (IH (with_added [file] loader)) as (files & Hsnd & Hfresh & Hlen).
      exists (file :: files). rewrite Hsnd, with_added_app. repeat split.
      * constructor; [exact (create_fresh _ _ _ _ _ _ _ Ec)|exact Hfresh].
      * cbn [length]. lia.
    + unfold bind at 1. cbn [addFile_if ret].
      destruct (IH loader) as (files & Hsnd & Hfresh & Hlen).
      exists files. repeat split; [exact Hsnd|exact Hfresh|cbn [length]; lia].
    + exists []. cbn [snd]. rewrite with_added_nil.
      repeat split; [constructor|cbn [length]; lia].
Qed.

(** X10: whatever its arguments and however it ends, the command leaves the
    loader's game and cache as they were and only appends to the files
    added: at most one for each key, each a pending video file with no data
    and no request. *)
Theorem video_only_appends (key urls le ab xs : value) (loader : Loader) :
  exists files : list File,
    snd (video key urls le ab xs loader) = with_added files loader /\
    Forall (fresh_video_file loader) files /\
    (length files <= keys_count key)%nat.
Proof.
  destruct (isArray key) eqn:Ek.
  - destruct key as [| | | | |keys|]; try discriminate.
    destruct (video_loop_grows keys loader) as (files & Hsnd & Hfresh & Hlen).
    exists files. cbn [video keys_count]. unfold bind.
    destruct (video_loop keys loader) as [[[]|err] loader']; cbn [snd] in *;
      repeat split; assumption.
  - rewrite video_single by exact Ek.
    assert (keys_count key = 1%nat) as -> by (destruct key; try reflexivity; discriminate).
    destruct (create loader key urls le ab xs) as [[file|]|err] eqn:Ec.
    + exists [file]. repeat split; [|cbn; lia].
      constructor; [exact (create_fresh _ _ _ _ _ _ _ Ec)|constructor].
    + exists []. cbn [snd]. rewrite with_added_nil. repeat split; [constructor|cbn; lia].
    + exists []. cbn [snd]. rewrite with_added_nil. repeat split; [constructor|cbn; lia].
Qed.

(** ** [onProcess] once more *)

(** X11: [onProcess] never touches the configuration of the file or its
    request, and a second call changes nothing the first has not done;
    without a request it throws a TypeError, the state already assigned,
    the data as it was, and [onProcessComplete] is not called. *)
Theorem onProcess_frame (this : File) :
  fileConfig (snd (onProcess this)) = fileConfig this /\
  xhrLoader (snd (onProcess this)) = xhrLoader this /\
  onProcess (snd (onProcess this)) = onProcess this /\
  (xhrLoader this = None ->
   onProcess this
   = (Throw TypeError, mkFile (fileConfig this) FILE_PROCESSING (data this) None)).
Proof.
  unfold onProcess. cbn [xhrLoader fileConfig state data].
  destruct (xhrLoader this) as [xhr|] eqn:Ex; cbn [snd xhrLoader fileConfig state data];
    repeat split; try reflexivity; discriminate.
Qed.

Lemma onProcess_frame_witness :
  onProcess (video_file sample_loader (VStr "intro") "intro.mp4" "mp4"
               VUndefined VUndefined VUndefined)
  = (Throw TypeError,
     mkFile (fileConfig (video_file sample_loader (VStr "intro") "intro.mp4" "mp4"
                           VUndefined VUndefined VUndefined))
       FILE_PROCESSING VUndefined None).
Proof.
  apply (proj2 (proj2 (proj2 (onProcess_frame
           (video_file sample_loader (VStr "intro") "intro.mp4" "mp4"
              VUndefined VUndefined VUndefined))))).
  reflexivity.
Defined.

End VideoFileMore.

(** * Further properties of the NineSlice WebGL renderer *)

Module NineSliceMore.
Import NineSlice NineSliceProps.

Section Loop.
Context {T : EngineTypes} {E : Engine}.

Variables (alpha0 : Num) (calcMatrix : TransformMatrix) (roundPixels0 tintEffect : bool).

(** A returning loop has updated each face it was given, in place, and
    counted it; it leaves the rest of the game object and the camera alone. *)
Lemma render_faces_src (fs : list Face) :
  forall (i : nat) (loc loc' : Locals) (w w' : World) (done : list Face),
    faces (src w) = (done ++ fs)%list ->
    length done = i ->
    render_faces alpha0 calcMatrix roundPixels0 tintEffect i fs loc w = (Ret loc', w') ->
    faces (src w') = (done ++ map (fun face => Face_update face alpha0 calcMatrix roundPixels0) fs)%list /\
    tintFill (src w') = tintFill (src w) /\
    alpha (src w') = alpha (src w) /\
    totalFrame (src w') = totalFrame (src w) /\
    src_rest (src w') = src_rest (src w) /\
    totalFacesRendered loc' = totalFacesRendered loc + Z.of_nat (length fs) /\
    camera w' = camera w.
Proof.
  induction fs as [|face0 rest IH]; intros i loc loc' w w' done Hfaces Hlen H.
  - cbn in H. unfold ret in H. injection H as <- <-.
    cbn. rewrite Hfaces. repeat split. lia.
  - cbn [render_faces] in H. unfold bind at 1 in H.
    rewrite render_face_eq in H. cbv zeta in H.
    destruct (currentBatch _) as [cb|] in H; [|discriminate].
    apply (IH (S i) _ loc' _ w' (done ++ [Face_update face0 alpha0 calcMatrix roundPixels0])%list) in H.
    + cbn [src camera totalFacesRendered src_updated set_faces
             faces tintFill alpha totalFrame src_rest] in H.
      destruct H as (Hf & Htint & Halpha & Hframe & Hrest & Htotal & Hcam).
      rewrite Hf, Htotal. cbn [map length].
      rewrite <- app_assoc. repeat split; try assumption. lia.
    + cbn [src src_updated set_faces faces]. rewrite Hfaces.
      rewrite insert_app_r_alt by lia.
      replace (i - length done)%nat with 0%nat by lia.
      rewrite <- app_assoc. reflexivity.
    + rewrite length_app. cbn. lia.
Qed.

(** Whatever the outcome of the loop, it leaves the camera, the frame total
    and the number of faces as they were. *)
Lemma render_faces_frame (fs : list Face) :
  forall (i : nat) (loc : Locals) (w : World),
    camera (snd (render_faces alpha0 calcMatrix roundPixels0 tintEffect i fs loc w))
    = camera w /\
    totalFrame (src (snd (render_faces alpha0 calcMatrix roundPixels0 tintEffect i fs loc w)))
    = totalFrame (src w) /\
    length (faces (src (snd (render_faces alpha0 calcMatrix roundPixels0 tintEffect
                               i fs loc w))))
    = length (faces (src w)).
Proof.
  induction fs as [|face0 rest IH]; intros i loc w.
  - cbn. repeat split.
  - cbn [render_faces]. unfold bind.
    rewrite !render_face_eq. cbv zeta.
    destruct (currentBatch _) as [cb|].
    + match goal with
      | |- context [render_faces _ _ _ _ (S i) rest ?l ?w1] =>
          destruct (IH (S i) l w1) as (Hcam & Hframe & Hlen)
      end.
      split; [exact Hcam|]. split; [exact Hframe|].
      etransitivity; [exact Hlen|].
      cbn [src src_updated set_faces faces]. apply length_insert.
    + cbn [snd src camera src_updated set_faces faces totalFrame].
      rewrite length_insert. repeat split.
Qed.



Lemma face_calls_indices (s : GameObject) (p : Pipeline) (i : nat) (loc : Locals) :
  omap load_index (face_calls s p i loc) = [i] /\
  omap update_index (face_calls s p i loc) = [i].
Proof.
  unfold face_calls.
  destruct (shouldFlush 3 p); [destruct (currentBatch (flush p))|]; split; reflexivity.
Qed.

(** A returning loop has updated and loaded the faces once each, in the
    order of their indices. *)
Lemma loop_calls_indices (fs : list Face) :
  forall (i : nat) (loc loc' : Locals) (w w' : World),
    render_faces alpha0 calcMatrix roundPixels0 tintEffect i fs loc w = (Ret loc', w') ->
    omap load_index (loop_calls alpha0 calcMatrix roundPixels0 tintEffect i fs loc w)
    = seq i (length fs) /\
    omap update_index (loop_calls alpha0 calcMatrix roundPixels0 tintEffect i fs loc w)
    = seq i (length fs).
Proof.
  induction fs as [|face0 rest IH]; intros i loc loc' w w' H; [split; reflexivity|].
  cbn [render_faces] in H. unfold bind at 1 in H.
  cbn [loop_calls length seq].
  destruct (face_calls_indices
              (src_updated i (Face_update face0 alpha0 calcMatrix roundPixels0) (src w)) (pipeline w) i loc) as [Hl Hu].
  destruct (render_face alpha0 calcMatrix roundPixels0 tintEffect i face0 loc w)
    as [[loc1|err] w1]; [|discriminate].
  destruct (IH (S i) loc1 loc' w1 w' H) as [IHl IHu].
  rewrite !omap_app, Hl, Hu, IHl, IHu. split; reflexivity.
Qed.

(** With no flush asked for, the loop returns when it starts with a batch;
    it keeps the start of the batch, the texture unit and the members of the
    pipeline it does not count in, and makes no flush and no binding call. *)
Lemma render_faces_no_flush (fs : list Face) :
  (forall p : Pipeline, shouldFlush 3 p = false) ->
  forall (i : nat) (loc : Locals) (w : World) (cb : Batch),
    currentBatch (pipeline w) = Some cb ->
    exists (loc' : Locals) (w' : World),
      render_faces alpha0 calcMatrix roundPixels0 tintEffect i fs loc w = (Ret loc', w') /\
      vertexCount (pipeline w') = vertexCount (pipeline w) + 3 * Z.of_nat (length fs) /\
      (exists cb' : Batch,
          currentBatch (pipeline w') = Some cb' /\ start cb' = start cb /\
          (fs <> [] -> count cb' = vertexCount (pipeline w') - start cb)) /\
      vertexComponentCount (pipeline w') = vertexComponentCount (pipeline w) /\
      pipeline_rest (pipeline w') = pipeline_rest (pipeline w) /\
      textureUnit loc' = textureUnit loc /\
      forallb (fun c => negb (is_flush_or_bind c))
        (loop_calls alpha0 calcMatrix roundPixels0 tintEffect i fs loc w) = true.
Proof.
  intros Hno. induction fs as [|face0 rest IH]; intros i loc w cb Hcb.
  - exists loc, w. cbn. repeat split; try lia.
    exists cb. repeat split; [exact Hcb|congruence].
  - cbn [render_faces loop_calls]. unfold bind at 1.
    rewrite render_face_eq. cbv zeta.
    unfold before_write, locals_before_write, face_calls. rewrite Hno, Hcb.
    match goal with
    | |- context [render_faces _ _ _ _ (S i) rest ?l ?w1] =>
        destruct (IH (S i) l w1
                    (mkBatch (start cb) (vertexCount (pipeline w) + 3 - start cb))
                    eq_refl)
          as (loc' & w' & Hloop & Hvc & (cb' & Hcb' & Hstart & Hcount) & Hvcc & Hrest
              & Htu & Hcalls)
    end.
    rewrite Hloop. exists loc', w'.
    cbn [pipeline set_currentBatch set_vertexCount set_vertexView vertexCount
           vertexComponentCount pipeline_rest textureUnit start] in *.
    repeat split.
    + rewrite Hvc. cbn [length]. lia.
    + exists cb'. split; [exact Hcb'|]. split; [exact Hstart|].
      intros _. destruct rest as [|face1 rest'].
      * cbn in Hloop. unfold ret in Hloop. injection Hloop as _ <-.
        cbn in Hcb'. injection Hcb' as <-. reflexivity.
      * apply Hcount. discriminate.
    + exact Hvcc.
    + exact Hrest.
    + exact Htu.
    + cbn [app forallb is_flush_or_bind negb andb]. exact Hcalls.
Qed.

End Loop.

Section Call.
Context {T : EngineTypes} {E : Engine}.

Lemma nonempty_faces (w : World) (face0 : Face) (rest : list Face) :
  faces (src w) = face0 :: rest -> faces (src w) <> [].
Proof. intros ->. discriminate. Qed.

(** X12: a call that returns has updated every face of the game object
    exactly once, in place, each with the alpha of the camera times that of
    the game object, the calculated matrix and the rounding of the camera;
    it has added the number of faces to [totalFrame] and left the tint, the
    alpha and the other members of the game object as they were. *)
Theorem renderer_updates_every_face (parentMatrix : option TransformMatrix) (w : World) :
  fst (NineSliceWebGLRenderer parentMatrix w) = Ret VUndefined ->
  let s := src (snd (NineSliceWebGLRenderer parentMatrix w)) in
  faces s = map (updated_face parentMatrix w) (faces (src w)) /\
  totalFrame s = totalFrame (src w) + Z.of_nat (length (faces (src w))) /\
  tintFill s = tintFill (src w) /\
  alpha s = alpha (src w) /\
  src_rest s = src_rest (src w).
Proof.
  intros H s. subst s.
  destruct (faces (src w)) as [|face0 rest] eqn:Ef.
  - rewrite renderer_empty by exact Ef. cbn [snd map length].
    rewrite Ef. repeat split. lia.
  - rewrite renderer_eq in H |- * by (exact (nonempty_faces w face0 rest Ef)).
    unfold with_loop_arguments in *. rewrite Ef in *.
    destruct (render_faces _ _ _ _ 0 (face0 :: rest) _ _) as [[loc|err] w1] eqn:El;
      [|discriminate].
    apply (render_faces_src _ _ _ _ (face0 :: rest) 0%nat _ loc _ w1 []) in El;
      [|exact Ef|reflexivity].
    destruct El as (Hf & Htint & Halpha & Hframe & Hrest & Htotal & _).
    cbn [snd world_after_loop src set_totalFrame faces totalFrame tintFill alpha src_rest].
    rewrite Hf, Htint, Halpha, Hframe, Hrest, Htotal.
    repeat split.
Qed.


(** X13: however the call ends, the camera gets the one [addToRenderList]
    call and nothing else (none without faces), and the game object keeps
    the number of its faces. *)
Theorem renderer_frame (parentMatrix : option TransformMatrix) (w : World) :
  camera (snd (NineSliceWebGLRenderer parentMatrix w))
  = match faces (src w) with
    | [] => camera w
    | _ :: _ => addToRenderList (src w) (camera w)
    end /\
  length (faces (src (snd (NineSliceWebGLRenderer parentMatrix w))))
  = length (faces (src w)).
Proof.
  destruct (faces (src w)) as [|face0 rest] eqn:Ef.
  - rewrite renderer_empty by exact Ef. cbn [snd]. rewrite Ef. split; reflexivity.
  - rewrite renderer_eq by (exact (nonempty_faces w face0 rest Ef)).
    unfold with_loop_arguments.
    match goal with
    | |- context [render_faces ?a ?m ?r ?t 0 (faces (src w)) ?l ?w0] =>
        destruct (render_faces_frame a m r t (faces (src w)) 0%nat l w0)
          as (Hcam & _ & Hlen);
        destruct (render_faces a m r t 0 (faces (src w)) l w0) as [[loc|err] w1]
    end; cbn [snd world_after_loop camera src set_totalFrame faces] in *;
      rewrite Hcam, Hlen; cbn [world_before_loop camera src]; rewrite Ef;
      split; reflexivity.
Qed.



(** X15: when the pipeline asks for no flush and the loop starts with a
    batch, a call with faces returns, having made no flush and no further
    binding call; the batch keeps its start and ends with the count at
    [vertexCount - start], the vertex count has grown by three for each
    face, and the other members of the pipeline are as the loop found
    them. *)
Theorem renderer_without_flush (parentMatrix : option TransformMatrix) (w : World)
    (cb : Batch) :
  (forall p : Pipeline, shouldFlush 3 p = false) ->
  currentBatch (pipeline (world_before_loop w)) = Some cb ->
  faces (src w) <> [] ->
  let n := Z.of_nat (length (faces (src w))) in
  let p0 := pipeline (world_before_loop w) in
  exists (loc : Locals) (w1 : World),
    with_loop_arguments render_faces parentMatrix w = (Ret loc, w1) /\
    NineSliceWebGLRenderer parentMatrix w = (Ret VUndefined, world_after_loop loc w1) /\
    vertexCount (pipeline w1) = vertexCount p0 + 3 * n /\
    currentBatch (pipeline w1)
    = Some (mkBatch (start cb) (vertexCount p0 + 3 * n - start cb)) /\
    vertexComponentCount (pipeline w1) = vertexComponentCount p0 /\
    pipeline_rest (pipeline w1) = pipeline_rest p0 /\
    textureUnit loc = textureUnit (locals_before_loop w) /\
    forallb (fun c => negb (is_flush_or_bind c))
      (with_loop_arguments loop_calls parentMatrix w) = true.
Proof.
  intros Hno Hcb Hf n p0. subst n p0. unfold with_loop_arguments.
  match goal with
  | |- context [render_faces ?a ?m ?r ?t 0 (faces (src w)) ?l ?w0] =>
      destruct (render_faces_no_flush a m r t (faces (src w)) Hno 0%nat l w0 cb Hcb)
        as (loc & w1 & Hloop & Hvc & (cb' & Hcb' & Hstart & Hcount) & Hvcc & Hrest
            & Htu & Hcalls)
  end.
  exists loc, w1. repeat split; try assumption.
  - rewrite renderer_eq by exact Hf. unfold with_loop_arguments.
    rewrite Hloop. reflexivity.
  - rewrite Hcb'. destruct cb' as [st ct]. cbn [start count] in *.
    rewrite Hstart, (Hcount Hf), Hvc. reflexivity.
Qed.


(** X16: a call that returns has updated the faces once each and loaded
    them once each, both in the order of their indices. *)
Theorem renderer_loads_faces_in_order (parentMatrix : option TransformMatrix) (w : World) :
  fst (NineSliceWebGLRenderer parentMatrix w) = Ret VUndefined ->
  exists cs : list Call,
    calls (snd (NineSliceWebGLRenderer parentMatrix w)) = (calls w ++ cs)%list /\
    omap load_index cs = seq 0 (length (faces (src w))) /\
    omap update_index cs = seq 0 (length (faces (src w))).
Proof.
  intros H.
  destruct (faces (src w)) as [|face0 rest] eqn:Ef.
  - rewrite renderer_empty by exact Ef. exists []. cbn [snd].
    rewrite app_nil_r. repeat split.
  - rewrite renderer_eq in H |- * by (exact (nonempty_faces w face0 rest Ef)).
    unfold with_loop_arguments in *. rewrite <- Ef.
    match goal with
    | |- context [render_faces ?a ?m ?r ?t 0 (faces (src w)) ?l ?w0] =>
        pose proof (render_faces_calls a m r t (faces (src w)) 0%nat l w0) as Hcalls;
        destruct (render_faces a m r t 0 (faces (src w)) l w0)
          as [[loc|err] w1] eqn:El;
        [pose proof (loop_calls_indices a m r t (faces (src w)) 0%nat l loc w0 w1 El)
           as [Hl Hu]
        |discriminate];
        exists ([CAddToRenderList; CPipelinesSet; CSetGameObject; CPreBatch]
                  ++ loop_calls a m r t 0 (faces (src w)) l w0 ++ [CPostBatch])%list
    end.
    cbn [snd world_after_loop calls] in *. rewrite Hcalls.
    cbn [world_before_loop calls]. split; [rewrite <- !app_assoc; reflexivity|].
    rewrite !omap_app, Hl, Hu. cbn. rewrite !app_nil_r. split; reflexivity.
Qed.


End Call.

Lemma renderer_updates_every_face_witness :
  faces (src (snd (NineSliceWebGLRenderer (E := bare_engine) None
                     (bare_world (Some (mkBatch 0 3)) [5; 7]))))
  = [30; 42] /\
  totalFrame (src (snd (NineSliceWebGLRenderer (E := bare_engine) None
                          (bare_world (Some (mkBatch 0 3)) [5; 7]))))
  = 0 + 2.
Proof.
  pose proof (renderer_updates_every_face (E := bare_engine) None
                (bare_world (Some (mkBatch 0 3)) [5; 7]) eq_refl)
    as (Hfaces & Hframe & _).
  split; [exact Hfaces|exact Hframe].
Defined.


Lemma bare_never_flushes :
  forall p : Pipeline, shouldFlush (Engine := bare_engine) 3 p = false.
Proof. intros p. reflexivity. Qed.

Lemma renderer_without_flush_witness :
  exists (loc : Locals) (w1 : World),
    NineSliceWebGLRenderer (E := bare_engine) None (bare_world (Some (mkBatch 0 3)) [5; 7])
    = (Ret VUndefined, world_after_loop (E := bare_engine) loc w1) /\
    vertexCount (pipeline w1) = 3 + 3 * 2 /\
    currentBatch (pipeline w1) = Some (mkBatch 0 (3 + 3 * 2 - 0)).
Proof.
  destruct (renderer_without_flush (E := bare_engine) None
              (bare_world (Some (mkBatch 0 3)) [5; 7]) (mkBatch 0 3)
              bare_never_flushes eq_refl)
    as (loc & w1 & _ & Hcall & Hvc & Hcb & _).
  - discriminate.
  - exists loc, w1. split; [exact Hcall|]. split; [exact Hvc|exact Hcb].
Defined.

Lemma renderer_loads_faces_in_order_witness :
  exists cs : list Call,
    calls (snd (NineSliceWebGLRenderer None (sample_world [10; 20; 30])))
    = (calls (sample_world [10; 20; 30]) ++ cs)%list /\
    omap load_index cs = seq 0 3 /\
    omap update_index cs = seq 0 3.
Proof.
  apply (renderer_loads_faces_in_order None (sample_world [10; 20; 30])).
  reflexivity.
Defined.

End NineSliceMore.
